(** * CircuitsVis: the attention-heads component

    A shallow embedding of [react/src/attention/AttentionHeads.tsx]:
    the head colour function, the derivation of head names and of the
    per-token colours, the selector and the zoomed view as data, and the
    component's state with its event handlers. *)

From Stdlib Require Import Reals Lra.
From Stdlib Require Import ZArith List String Ascii Bool Lia.
From Stdlib Require Import Uint63 Floats DecimalString DecimalFacts DecimalN.
From Stdlib Require Import FinFun.
Import ListNotations.

Local Open Scope string_scope.

(** ** The JavaScript runtime the component relies on

    A JavaScript [number] is an IEEE 754 binary64 value, which is what
    Rocq's primitive [float] is.  [Math.round] and the number-to-string
    conversion of template literals are written out after ECMA-262. *)
Module JS.

Definition Number := float.

(** The Number value for an integer: nearest double, ties to even. *)
Definition Number_of_Z (z : Z) : Number :=
  SF2Prim (binary_normalize prec emax z 0 false).

Definition Number_of_nat (n : nat) : Number := Number_of_Z (Z.of_nat n).

(** [Math.round(x)]: the integral Number closest to [x], ties towards
    +Infinity; NaN, the zeros and the infinities are returned as they
    are, and a negative [x >= -0.5] gives [-0].  For [x = v * 2^e] with
    [e < 0] the result is [floor (x + 1/2)], that is
    [(2v + 2^(-e)) / 2^(1-e)] rounded down, which the shift computes. *)
Definition Math_round (x : Number) : Number :=
  match Prim2SF x with
  | S754_finite s m e =>
      if (0 <=? e)%Z then x
      else
        let v := cond_Zopp s (Zpos m) in
        let r := Z.shiftr (2 * v + Z.shiftl 1 (- e)) (1 - e) in
        if (r =? 0)%Z then (if s then neg_zero else zero)
        else Number_of_Z r
  | _ => x
  end.

(** [Math.round(x)] computed on the machine representation, for the
    checks over many heads.  A finite non-zero [x] is
    [+-m * 2^(se - 2154)] with the 53-bit mantissa [m] of
    [normfr_mantissa] and the biased exponent [se] of [frshiftexp]
    ([2154 = shift + prec]).  With [k = 2154 - se > 0], [|x| = m / 2^k]
    and the rounded magnitude is [(2m + 2^k) >> (k + 1)] for a positive
    [x], and [(2m + 2^k - 1) >> (k + 1)] for a negative one (ties go up
    towards +Infinity); from [k = 60] on [|x| < 1/2]. *)
Definition Math_round_fast (x : Number) : Number :=
  if is_nan x || is_infinity x || is_zero x then x
  else
    let '(f, se) := frshiftexp x in
    let m := normfr_mantissa f in
    if (2154 <=? se)%uint63 then x
    else
      let k := (2154 - se)%uint63 in
      let negative := (x <? 0)%float in
      let r := if (60 <=? k)%uint63 then 0%uint63
               else if negative
                    then ((2 * m + (1 << k) - 1) >> (k + 1))%uint63
                    else ((2 * m + (1 << k)) >> (k + 1))%uint63 in
      if (r =? 0)%uint63 then (if negative then neg_zero else zero)
      else if negative then (- of_uint63 r)%float else of_uint63 r.

(** The integer a finite integral Number stands for. *)
Definition integral_value (x : Number) : option Z :=
  match Prim2SF x with
  | S754_zero _ => Some 0%Z
  | S754_finite s m e =>
      if (0 <=? e)%Z then Some (cond_Zopp s (Z.shiftl (Zpos m) e))
      else
        let q := Z.shiftr (Zpos m) (- e) in
        if (Z.shiftl q (- e) =? Zpos m)%Z then Some (cond_Zopp s q)
        else None
  | _ => None
  end.

(** The real number a finite Number stands for: [+-m * 2^e]. *)
Definition Number_value (x : Number) : R :=
  match Prim2SF x with
  | S754_finite s m e => (IZR (cond_Zopp s (Zpos m)) * powerRZ 2 e)%R
  | _ => 0%R
  end.

(** Decimal digits of a non-negative integer. *)
Definition digits_of_Z (z : Z) : string :=
  NilZero.string_of_uint (N.to_uint (Z.to_N z)).

Definition digits_of_nat (n : nat) : string := digits_of_Z (Z.of_nat n).

Fixpoint zeros (n : nat) : string :=
  match n with
  | O => ""
  | S n' => String "0" (zeros n')
  end.

Definition ceil_div (a b : Z) : Z := (- ((- a) / b))%Z.

(** The multiples [s * 10^q] inside the rounding interval of the double
    [m * 2^e]: the interval is [L * 2^(e-2), H * 2^(e-2)] around
    [4m * 2^(e-2)], closed when [m] is even.  Returns the bounds on [s]
    and the value over [10^q] as a fraction: [(smin, smax, num, den)]. *)
Definition decimal_window (m : positive) (e q : Z) : Z * Z * Z * Z :=
  let E := (e - 2)%Z in
  let L := if ((Zpos m =? 2 ^ 52) && (emin <? e))%Z
           then (4 * Zpos m - 1)%Z else (4 * Zpos m - 2)%Z in
  let H := (4 * Zpos m + 2)%Z in
  let up := ((if 0 <=? E then 2 ^ E else 1) *
             (if q <? 0 then 10 ^ (- q) else 1))%Z in
  let den := ((if 0 <=? E then 1 else 2 ^ (- E)) *
              (if q <? 0 then 1 else 10 ^ q))%Z in
  let closed := Z.even (Zpos m) in
  let smin := if closed then ceil_div (L * up) den
              else (L * up / den + 1)%Z in
  let smax := if closed then (H * up / den)%Z
              else (ceil_div (H * up) den - 1)%Z in
  (smin, smax, 4 * Zpos m * up, den)%Z.

(** The integer of [smin..smax] closest to [num / den], the even one
    when two are equally close. *)
Definition closest_in (smin smax num den : Z) : Z :=
  let fl := (num / den)%Z in
  let twice := (2 * (num - fl * den))%Z in
  let near := if (twice <? den)%Z then fl
              else if (den <? twice)%Z then (fl + 1)%Z
              else if Z.even fl then fl else (fl + 1)%Z in
  Z.max smin (Z.min smax near).

(** Search downwards for the largest [q] with a multiple of [10^q] in
    the rounding interval: its [s] has the fewest digits. *)
Fixpoint shortest_decimal (fuel : nat) (m : positive) (e q : Z) : Z * Z :=
  let '(smin, smax, num, den) := decimal_window m e q in
  if (smin <=? smax)%Z && (1 <=? smax)%Z
  then (closest_in (Z.max 1 smin) smax num den, q)
  else match fuel with
       | O => (Zpos m, e)
       | S fuel' => shortest_decimal fuel' m e (q - 1)
       end.

Definition string_take (n : nat) (s : string) : string := substring 0 n s.
Definition string_drop (n : nat) (s : string) : string :=
  substring n (String.length s - n) s.

(** [Number::toString] of a positive finite double [m * 2^e]. *)
Definition positive_toString (m : positive) (e : Z) : string :=
  let t := (e + Z.log2 (Zpos m) + 2)%Z in
  let q0 := ((if 0 <=? t then t * 31 else t * 30) / 100 + 1)%Z in
  let '(s, q) := shortest_decimal 400 m e q0 in
  let ds := digits_of_Z s in
  let k := Z.of_nat (String.length ds) in
  let n := (k + q)%Z in
  if ((k <=? n) && (n <=? 21))%Z then ds ++ zeros (Z.to_nat (n - k))
  else if ((0 <? n) && (n <=? 21))%Z
  then string_take (Z.to_nat n) ds ++ "." ++ string_drop (Z.to_nat n) ds
  else if ((-6 <? n) && (n <=? 0))%Z
  then "0." ++ zeros (Z.to_nat (- n)) ++ ds
  else
    let x := (n - 1)%Z in
    let sign := if (x <? 0)%Z then "-" else "+" in
    let mant := if (k =? 1)%Z then ds
                else string_take 1 ds ++ "." ++ string_drop 1 ds in
    mant ++ "e" ++ sign ++ digits_of_Z (Z.abs x).

(** [Number::toString(x)], radix 10: what a template literal inserts
    for a number. *)
Definition Number_toString (x : Number) : string :=
  match Prim2SF x with
  | S754_nan => "NaN"
  | S754_zero _ => "0"
  | S754_infinity false => "Infinity"
  | S754_infinity true => "-Infinity"
  | S754_finite false m e => positive_toString m e
  | S754_finite true m e => "-" ++ positive_toString m e
  end.

End JS.


(** ** The hover-lock hook

    [useHoverLock] lives in [./components/useHoverLock], outside the file
    embedded here; the component only calls it.  Its state and its four
    operations follow the specification of the Hover-Lock State. *)
Module HoverLock.

(** Modelled from the spec: the state of [useHoverLock], whose source
    file is missing.  A focus state is an optional index and a lock
    flag; the configured default and the index currently under the
    pointer are kept so that a mouse-leave and an unlocking click can
    fall back on them. *)
Record State := mkState {
  defaultIndex : option nat;
  hover : option nat;
  focus : option nat;
  lock : bool
}.

(** Modelled from the spec: [initialize(defaultIndex)] of the missing
    [useHoverLock], sets the initial focus to the default (or unset)
    and lock to false. *)
Definition initialize (d : option nat) : State :=
  {| defaultIndex := d; hover := None; focus := d; lock := false |}.

(** Modelled from the spec: [onMouseEnter(index)] of the missing
    [useHoverLock]; if not locked it sets focus to the index, if locked
    it has no observable effect on focus. *)
Definition onMouseEnter (index : nat) (st : State) : State :=
  if lock st
  then {| defaultIndex := defaultIndex st; hover := Some index;
          focus := focus st; lock := true |}
  else {| defaultIndex := defaultIndex st; hover := Some index;
          focus := Some index; lock := false |}.

(** Modelled from the spec: [onMouseLeave()] of the missing
    [useHoverLock]; if not locked it clears focus back to no focus or
    the configured default, if locked the focus stays. *)
Definition onMouseLeave (st : State) : State :=
  if lock st
  then {| defaultIndex := defaultIndex st; hover := None;
          focus := focus st; lock := true |}
  else {| defaultIndex := defaultIndex st; hover := None;
          focus := defaultIndex st; lock := false |}.

Definition same_index (o : option nat) (index : nat) : bool :=
  match o with
  | Some k => Nat.eqb k index
  | None => false
  end.

(** The focus of the hover-preview mode: the current hover if any, else
    the default (which may be unset). *)
Definition preview (st : State) : option nat :=
  match hover st with
  | Some h => Some h
  | None => defaultIndex st
  end.

(** Modelled from the spec: [onClick(index)] of the missing
    [useHoverLock]; unlocked or locked on a different index it sets
    focus to the index and lock to true, locked on the same index it
    sets lock to false and falls back to hover-preview. *)
Definition onClick (index : nat) (st : State) : State :=
  if lock st && same_index (focus st) index
  then {| defaultIndex := defaultIndex st; hover := hover st;
          focus := preview st; lock := false |}
  else {| defaultIndex := defaultIndex st; hover := hover st;
          focus := Some index; lock := true |}.

(** The handlers a region receives, as data. *)
Inductive Event :=
| Click (index : nat)
| MouseEnter (index : nat)
| MouseLeave.

Definition handle (st : State) (ev : Event) : State :=
  match ev with
  | Click index => onClick index st
  | MouseEnter index => onMouseEnter index st
  | MouseLeave => onMouseLeave st
  end.

Definition run (st : State) (evs : list Event) : State :=
  fold_left handle evs st.

Definition is_hover (ev : Event) : bool :=
  match ev with
  | Click _ => false
  | MouseEnter _ | MouseLeave => true
  end.

End HoverLock.

(** ** AttentionHeads.tsx *)

Definition Matrix := list (list JS.Number).
Definition Tensor := list Matrix.

(** A default value for a property or an argument that is not given. *)
Definition with_default {A : Type} (o : option A) (d : A) : A :=
  match o with Some a => a | None => d end.

(** [attentionHeadColor(idx, numberOfHeads, alpha = "100%")]; a missing
    argument is [None]. *)
Definition attentionHeadColor
  (idx numberOfHeads : JS.Number) (alpha : option string) : string :=
  let alpha := with_default alpha "100%" in
  let hue := JS.Math_round ((idx / numberOfHeads) * 360)%float in
  "hsla(" ++ JS.Number_toString hue ++ ", 70%, 50%,  " ++ alpha ++ ")".

(** The local [hue] of [attentionHeadColor]. *)
Definition attentionHeadHue (idx numberOfHeads : JS.Number) : JS.Number :=
  JS.Math_round ((idx / numberOfHeads) * 360)%float.

(** [Array.prototype.map] with the index its callback receives. *)
Fixpoint mapi_from {A B : Type} (f : A -> nat -> B) (i : nat) (l : list A)
  : list B :=
  match l with
  | [] => []
  | x :: l' => f x i :: mapi_from f (S i) l'
  end.

Definition mapi {A B : Type} (f : A -> nat -> B) (l : list A) : list B :=
  mapi_from f 0 l.

(** [TokensView], declared in [./components/AttentionTokens]. *)
Inductive TokensView := DESTINATION_TO_SOURCE | SOURCE_TO_DESTINATION.

(** [AttentionHeadsProps]; an optional property that is not given is
    [None]. *)
Record AttentionHeadsProps := mkProps {
  attention : Tensor;
  attentionHeadNames : option (list string);
  maxValue : option JS.Number;
  minValue : option JS.Number;
  negativeColor : option string;
  positiveColor : option string;
  maskUpperTri : option bool;
  showAxisLabels : option bool;
  showTokens : option bool;
  tokens : list string
}.

(** The properties handed to the [AttentionPattern] heat map. *)
Record AttentionPatternProps := mkPattern {
  pattern_attention : option Matrix;
  pattern_tokens : list string;
  pattern_showAxisLabels : option bool;
  pattern_maxValue : option JS.Number;
  pattern_minValue : option JS.Number;
  pattern_negativeColor : option string;
  pattern_positiveColor : option string;
  pattern_zoomed : option bool;
  pattern_maskUpperTri : option bool
}.

(** One cell of the head grid: the styles that depend on the head, the
    label, the heat map and the three handlers. *)
Record HeadCell := mkCell {
  cell_key : nat;
  cell_onClick : HoverLock.Event;
  cell_onMouseEnter : HoverLock.Event;
  cell_onMouseLeave : HoverLock.Event;
  cell_borderColor : string;
  cell_boxShadow : option string;
  cell_labelBackground : string;
  cell_label : option string;
  cell_pattern : AttentionPatternProps
}.

(** [AttentionHeadsSelector]: one cell per head.  [focused] is the
    number the hover-lock hook reports. *)
Definition AttentionHeadsSelector
  (p : AttentionHeadsProps) (headNames : list string) (focused : nat)
  : list HeadCell :=
  let numberOfHeads := JS.Number_of_nat (List.length (attention p)) in
  mapi (fun headAttention idx =>
    let isFocused := Nat.eqb focused idx in
    {| cell_key := idx;
       cell_onClick := HoverLock.Click idx;
       cell_onMouseEnter := HoverLock.MouseEnter idx;
       cell_onMouseLeave := HoverLock.MouseLeave;
       cell_borderColor :=
         attentionHeadColor (JS.Number_of_nat idx) numberOfHeads None;
       cell_boxShadow :=
         if isFocused
         then Some ("0px 0px 4px 3px " ++
                    attentionHeadColor (JS.Number_of_nat idx) numberOfHeads
                      (Some "60%"))
         else None;
       cell_labelBackground :=
         attentionHeadColor (JS.Number_of_nat idx) numberOfHeads None;
       cell_label := nth_error headNames idx;
       cell_pattern :=
         {| pattern_attention := Some headAttention;
            pattern_tokens := tokens p;
            pattern_showAxisLabels := Some false;
            pattern_maxValue := maxValue p;
            pattern_minValue := minValue p;
            pattern_negativeColor := negativeColor p;
            pattern_positiveColor := positiveColor p;
            pattern_zoomed := None;
            pattern_maskUpperTri := maskUpperTri p |} |})
    (attention p).

(** [headNames]: the given names, or ["Head 0"], ["Head 1"], ... (an
    array is truthy even when empty; an index prints as its decimal
    digits). *)
Definition headNames (names : option (list string)) (attention : Tensor)
  : list string :=
  match names with
  | Some given => given
  | None => mapi (fun _ idx => "Head " ++ JS.digits_of_nat idx) attention
  end.

Section Component.

(** The per-token colour data and the reduction [colorAttentionTensors]
    of [./AttentionPatterns], an external collaborator. *)
Variable ColoredAttention : Type.
Variable colorAttentionTensors : Tensor -> ColoredAttention.

(** A computation that records the tensors it hands to
    [colorAttentionTensors]. *)
Definition Traced (A : Type) : Type := (A * list Tensor)%type.

Definition ret {A : Type} (a : A) : Traced A := (a, []).

Definition bind {A B : Type} (m : Traced A) (k : A -> Traced B)
  : Traced B :=
  let '(a, calls) := m in
  let '(b, calls') := k a in
  (b, calls ++ calls')%list.

Definition call_colorAttentionTensors (t : Tensor)
  : Traced ColoredAttention :=
  (colorAttentionTensors t, [t]).

Definition result {A : Type} (m : Traced A) : A := fst m.
Definition invocations {A : Type} (m : Traced A) : list Tensor := snd m.

Definition is_absent {A : Type} (o : option A) : bool :=
  match o with Some _ => false | None => true end.

(** [attention[0]?.length || 0] *)
Definition numDestTokens (heads : Tensor) : nat :=
  match nth_error heads 0 with
  | Some head => List.length head
  | None => 0
  end.

(** [attention[0]?.[0]?.length || 0] *)
Definition numSrcTokens (heads : Tensor) : nat :=
  match nth_error heads 0 with
  | Some head =>
      match nth_error head 0 with
      | Some row => List.length row
      | None => 0
      end
  | None => 0
  end.

(** The body of the [useMemo] that computes [coloredAttention]; [None]
    is [null], and an [attention] that is not there is [None] too. *)
Definition coloredAttention (showTokens : bool) (attention : option Tensor)
  : Traced (option ColoredAttention) :=
  let heads := match attention with Some a => a | None => [] end in
  if negb showTokens || is_absent attention || (List.length heads =? 0)%nat
  then ret None
  else
    let numHeads := List.length heads in
    if (numDestTokens heads =? 0)%nat || (numSrcTokens heads =? 0)%nat
       || (numHeads =? 0)%nat
    then ret None
    else bind (call_colorAttentionTensors heads) (fun c => ret (Some c)).

(** The properties handed to the [Tokens] overlay. *)
Record TokensProps := mkTokens {
  tokens_coloredAttention : ColoredAttention;
  tokens_focusedHead : nat;
  tokens_focusedToken : option nat;
  tokens_onClickToken : nat -> HoverLock.Event;
  tokens_onMouseEnterToken : nat -> HoverLock.Event;
  tokens_onMouseLeaveToken : HoverLock.Event;
  tokens_tokens : list string;
  tokens_tokensView : TokensView
}.

(** What [AttentionHeads] renders: the head grid, the zoomed head with
    its title and label, and the token overlay when it is shown. *)
Record View := mkView {
  view_selector : list HeadCell;
  view_zoomTitle : option string;
  view_zoomLabelBackground : string;
  view_zoomLabel : option string;
  view_zoomPattern : AttentionPatternProps;
  view_tokens : option TokensProps
}.

(** [AttentionHeads], as a function of its properties and of what its
    three hooks report: the focused head, the token view and the
    focused token. *)
Definition AttentionHeads
  (p : AttentionHeadsProps) (focused : nat) (tokensView : TokensView)
  (focussedToken : option nat) : View :=
  let maskUpperTri := with_default (maskUpperTri p) true in
  let showTokens := with_default (showTokens p) true in
  let headNames := headNames (attentionHeadNames p) (attention p) in
  let coloredAttention :=
    result (coloredAttention showTokens (Some (attention p))) in
  {| view_selector :=
       AttentionHeadsSelector
         {| attention := attention p;
            attentionHeadNames := Some headNames;
            maxValue := maxValue p;
            minValue := minValue p;
            negativeColor := negativeColor p;
            positiveColor := positiveColor p;
            maskUpperTri := Some maskUpperTri;
            showAxisLabels := None;
            showTokens := None;
            tokens := tokens p |}
         headNames focused;
     view_zoomTitle := nth_error headNames focused;
     view_zoomLabelBackground :=
       attentionHeadColor (JS.Number_of_nat focused)
         (JS.Number_of_nat (List.length (attention p))) None;
     view_zoomLabel := nth_error headNames focused;
     view_zoomPattern :=
       {| pattern_attention := nth_error (attention p) focused;
          pattern_tokens := tokens p;
          pattern_showAxisLabels := None;
          pattern_maxValue := maxValue p;
          pattern_minValue := minValue p;
          pattern_negativeColor := negativeColor p;
          pattern_positiveColor := positiveColor p;
          pattern_zoomed := Some true;
          pattern_maskUpperTri := Some maskUpperTri |};
     view_tokens :=
       if showTokens
       then match coloredAttention with
            | Some colored =>
                Some {| tokens_coloredAttention := colored;
                        tokens_focusedHead := focused;
                        tokens_focusedToken := focussedToken;
                        tokens_onClickToken := HoverLock.Click;
                        tokens_onMouseEnterToken := HoverLock.MouseEnter;
                        tokens_onMouseLeaveToken := HoverLock.MouseLeave;
                        tokens_tokens := tokens p;
                        tokens_tokensView := tokensView |}
            | None => None
            end
       else None |}.

End Component.

(** ** The state of the component

    [AttentionHeads] holds three pieces of state: the hover-lock of the
    head grid, [useHoverLock(0)]; the token view, [useState] with
    [DESTINATION_TO_SOURCE]; and the hover-lock of the tokens,
    [useHoverLock()]. *)
Record ComponentState := mkComponent {
  headLock : HoverLock.State;
  tokensView : TokensView;
  tokenLock : HoverLock.State
}.

Definition AttentionHeads_mount : ComponentState :=
  {| headLock := HoverLock.initialize (Some 0);
     tokensView := DESTINATION_TO_SOURCE;
     tokenLock := HoverLock.initialize None |}.

(** What the user can do: act on a head cell, choose an entry of the
    token-view [select] (its [onChange] calls [setTokensView]), act on a
    token. *)
Inductive ComponentEvent :=
| HeadEvent (ev : HoverLock.Event)
| SetTokensView (v : TokensView)
| TokenEvent (ev : HoverLock.Event).

Definition dispatch (st : ComponentState) (ev : ComponentEvent)
  : ComponentState :=
  match ev with
  | HeadEvent e =>
      {| headLock := HoverLock.handle (headLock st) e;
         tokensView := tokensView st;
         tokenLock := tokenLock st |}
  | SetTokensView v =>
      {| headLock := headLock st;
         tokensView := v;
         tokenLock := tokenLock st |}
  | TokenEvent e =>
      {| headLock := headLock st;
         tokensView := tokensView st;
         tokenLock := HoverLock.handle (tokenLock st) e |}
  end.

Definition dispatch_all (st : ComponentState) (evs : list ComponentEvent)
  : ComponentState :=
  fold_left dispatch evs st.

(** The shape [heads x dest_pos x src_pos] of an attention tensor: the
    number of heads, every head with [dest] rows and every row with [src]
    entries. *)
Definition has_shape (t : Tensor) (heads dest src : nat) : Prop :=
  List.length t = heads
  /\ Forall (fun head : Matrix =>
               List.length head = dest
               /\ Forall (fun row => List.length row = src) head) t.

Definition is_view_change (ev : ComponentEvent) : bool :=
  match ev with
  | SetTokensView _ => true
  | HeadEvent _ | TokenEvent _ => false
  end.

(** A tensor of the given shape, filled with zeros. *)
Definition zero_tensor (heads dest src : nat) : Tensor :=
  repeat (repeat (repeat 0%float src) dest) heads.

(** Properties with only the tensor given. *)
Definition props_of (t : Tensor) (names : option (list string))
  : AttentionHeadsProps :=
  {| attention := t;
     attentionHeadNames := names;
     maxValue := None;
     minValue := None;
     negativeColor := None;
     positiveColor := None;
     maskUpperTri := None;
     showAxisLabels := None;
     showTokens := None;
     tokens := ["a"; "b"; "c"] |}.

(** ** Checks over whole head counts *)

(** The hue in whole degrees, for an index and a head count that are
    array positions. *)
Definition hue_degrees (index headCount : nat) : Z :=
  with_default
    (JS.integral_value
       (attentionHeadHue (JS.Number_of_nat index)
          (JS.Number_of_nat headCount)))
    0%Z.

(** One head, on machine integers: the hue is the Number of a whole
    degree [h <= 359] with [|2 n h - 720 i| <= n].  The degree is the
    exact [i * 360 / n] rounded half up, or one less where double
    arithmetic falls just short of a tie. *)
Definition hue_check (n i : int) : bool :=
  let hue := JS.Math_round_fast (of_uint63 i / of_uint63 n * 360)%float in
  let up := ((720 * i + n) / (2 * n))%uint63 in
  let h := if PrimFloat.Leibniz.eqb hue (of_uint63 up) then up
           else (up - 1)%uint63 in
  PrimFloat.Leibniz.eqb hue (of_uint63 h)
  && (h <=? 359)%uint63
  && (2 * n * h <=? 720 * i + n)%uint63
  && (720 * i <=? 2 * n * h + n)%uint63.

(** The heads [i], [i + 1], ... ([count] of them) of [n] heads. *)
Fixpoint hue_check_row (count : nat) (n i : int) : bool :=
  match count with
  | O => true
  | S count' => hue_check n i && hue_check_row count' n (i + 1)%uint63
  end.

(** The head counts [n], [n + 1], ... ([count] of them); [k] is [n] as a
    natural number. *)
Fixpoint hue_check_from (count k : nat) (n : int) : bool :=
  match count with
  | O => true
  | S count' =>
      hue_check_row k n 0%uint63 && hue_check_from count' (S k) (n + 1)%uint63
  end.

Definition hue_check_upto (bound : nat) : bool :=
  hue_check_from bound 1 1%uint63.

(** A whole Number prints as its decimal digits and stands for its
    integer: the check. *)
Definition degrees_print_check (bound : nat) : bool :=
  forallb
    (fun h =>
       String.eqb (JS.Number_toString (JS.Number_of_nat h))
         (JS.digits_of_nat h)
       && match JS.integral_value (JS.Number_of_nat h) with
          | Some z => (z =? Z.of_nat h)%Z
          | None => false
          end)
    (seq 0 bound).

(** ** What a rendering shows *)

(** A cell has the glow of the focused head. *)
Definition highlighted (cell : HeadCell) : bool :=
  match cell_boxShadow cell with
  | Some _ => true
  | None => false
  end.

(** * Properties *)

(** ** The runtime on known values *)

Example Math_round_values :
  map JS.Math_round [0.5; 1.5; 2.5; -0.5; -1.5; -2.5; 359.5; -0.25; 2.25]%float
  = [1; 2; 3; -0; -1; -2; 360; -0; 2]%float
  /\ JS.Math_round nan = nan
  /\ JS.Math_round infinity = infinity
  /\ JS.Math_round 4503599627370495.5%float = 4503599627370496%float.
Proof. vm_compute. repeat split. Qed.

Example Number_toString_values :
  map JS.Number_toString
    [0; -0; nan; infinity; neg_infinity; 180; 1.5; -1.5; 0.5;
     9007199254740992; 0x1p+70; 0x1p-20; 0x1p-1074]%float
  = ["0"; "0"; "NaN"; "Infinity"; "-Infinity"; "180"; "1.5"; "-1.5"; "0.5";
     "9007199254740992"; "1.1805916207174113e+21";
     "9.5367431640625e-7"; "5e-324"].
Proof. vm_compute. reflexivity. Qed.

(** ** Arithmetic of Numbers *)

(** *** Division by and of zero *)

Lemma Number_positive_cases (x : JS.Number) :
  (0 <? x)%float = true ->
  Prim2SF x = S754_infinity false \/
  exists m e, Prim2SF x = S754_finite false m e.
Proof.
  rewrite ltb_spec. change (Prim2SF 0) with (S754_zero false).
  destruct (Prim2SF x) as [s | s | | s m e]; cbn; try discriminate.
  - destruct s; [discriminate | now left].
  - destruct s; [discriminate | right; now exists m, e].
Qed.

Lemma Number_zero_cases (x : JS.Number) :
  (x =? 0)%float = true -> exists s, Prim2SF x = S754_zero s.
Proof.
  rewrite eqb_spec. change (Prim2SF 0) with (S754_zero false).
  destruct (Prim2SF x) as [s | s | | s m e]; cbn; try discriminate.
  - now exists s.
  - destruct s; discriminate.
  - destruct s; discriminate.
Qed.

Lemma zero_div_positive (n : JS.Number) :
  (0 <? n)%float = true -> (0 / n)%float = 0%float.
Proof.
  intros Hn. apply Prim2SF_inj. rewrite div_spec.
  change (Prim2SF 0) with (S754_zero false).
  destruct (Number_positive_cases n Hn) as [-> | (m & e & ->)]; reflexivity.
Qed.

Lemma zero_div_zero (idx : JS.Number) :
  (idx =? 0)%float = true -> (idx / 0)%float = nan.
Proof.
  intros Hz. apply Prim2SF_inj. rewrite div_spec.
  destruct (Number_zero_cases idx Hz) as [s ->]. reflexivity.
Qed.

Lemma positive_div_zero (idx : JS.Number) :
  (0 <? idx)%float = true -> (idx / 0)%float = infinity.
Proof.
  intros Hp. apply Prim2SF_inj. rewrite div_spec.
  destruct (Number_positive_cases idx Hp) as [-> | (m & e & ->)]; reflexivity.
Qed.

(** *** [Math.round] on the machine representation *)

Lemma Number_of_Z_of_uint63 (x : int) :
  JS.Number_of_Z (Uint63.to_Z x) = of_uint63 x.
Proof.
  unfold JS.Number_of_Z. rewrite <- of_uint63_spec. apply SF2Prim_Prim2SF.
Qed.


Lemma Zpos_iter_xO (m p : positive) :
  Zpos (Pos.iter xO m p) = (Zpos m * 2 ^ Zpos p)%Z.
Proof.
  induction p as [| p IH] using Pos.peano_ind.
  - cbn. rewrite Pos.mul_comm. reflexivity.
  - rewrite Pos.iter_succ, Pos2Z.inj_succ, Z.pow_succ_r by lia.
    rewrite Pos2Z.inj_xO, IH. ring.
Qed.

Lemma finite_valid (x : float) (s : bool) (m : positive) (e : Z) :
  Prim2SF x = S754_finite s m e ->
  let d := Zpos (digits2_pos m) in
  (d <= 53 /\ (d = 53 \/ e = -1074) /\ -1074 <= e <= 971)%Z.
Proof.
  intros Hx d. pose proof (Prim2SF_valid x) as Hv. rewrite Hx in Hv.
  cbn [valid_binary] in Hv. unfold bounded, canonical_mantissa in Hv.
  apply andb_true_iff in Hv. destruct Hv as [Hc Hb].
  apply Z.eqb_eq in Hc. apply Z.leb_le in Hb.
  unfold fexp, SpecFloat.emin, prec, emax in *. fold d in Hc. lia.
Qed.

Lemma finite_frshiftexp (x : float) (s : bool) (m : positive) (e : Z) :
  Prim2SF x = S754_finite s m e ->
  let d := Zpos (digits2_pos m) in
  Uint63.to_Z (normfr_mantissa (fst (frshiftexp x)))
    = (Zpos m * 2 ^ (53 - d))%Z
  /\ Uint63.to_Z (snd (frshiftexp x)) = (2101 + e + d)%Z.
Proof.
  intros Hx d.
  destruct (finite_valid x s m e Hx) as (Hd & Hcanon & He). fold d in Hd, Hcanon.
  pose proof (frshiftexp_spec x) as Hfr. rewrite Hx in Hfr.
  destruct (frshiftexp x) as [f se]. cbn [fst snd].
  pose proof (normfr_mantissa_spec f) as Hm.
  unfold SFfrexp in Hfr. fold d in Hfr.
  unfold prec, shift in *.
  destruct (Z.leb_spec 53 d) as [Hfull | Hsub].
  - pose proof (f_equal fst Hfr) as Hf. pose proof (f_equal snd Hfr) as Hse.
    cbn [fst snd] in Hf, Hse. rewrite Hf in Hm.
    unfold SFnormfr_mantissa in Hm. rewrite Z.eqb_refl in Hm.
    cbn [Z.of_N] in Hm.
    replace (53 - d)%Z with 0%Z by lia. rewrite Hm. split; lia.
  - pose proof (f_equal fst Hfr) as Hf. pose proof (f_equal snd Hfr) as Hse.
    cbn [fst snd] in Hf, Hse. rewrite Hf in Hm.
    unfold SFnormfr_mantissa in Hm. rewrite Z.eqb_refl in Hm.
    cbn [Z.of_N] in Hm.
    rewrite Hm, Zpos_iter_xO. rewrite Z2Pos.id by lia. split; lia.
Qed.

Lemma digits2_bound (m : positive) :
  (Zpos m < 2 ^ Zpos (digits2_pos m))%Z.
Proof.
  induction m as [m IH | m IH |]; cbn [digits2_pos].
  - rewrite Pos2Z.inj_succ, Z.pow_succ_r by lia. lia.
  - rewrite Pos2Z.inj_succ, Z.pow_succ_r by lia. lia.
  - reflexivity.
Qed.

Lemma finite_classified (x : float) (s : bool) (m : positive) (e : Z) :
  Prim2SF x = S754_finite s m e ->
  is_nan x = false /\ is_infinity x = false /\ is_zero x = false
  /\ (x <? 0)%float = s.
Proof.
  intros Hx. unfold is_nan, is_infinity, is_zero.
  rewrite !eqb_spec, ltb_spec, abs_spec, Hx.
  change (Prim2SF infinity) with (S754_infinity false).
  change (Prim2SF zero) with (S754_zero false).
  change (Prim2SF 0) with (S754_zero false).
  unfold SFeqb, SFltb, SFabs, SFcompare.
  rewrite Z.compare_refl, Pos.compare_cont_refl.
  destruct s; repeat split; reflexivity.
Qed.

Lemma special_classified (x : float) :
  (forall s m e, Prim2SF x <> S754_finite s m e) ->
  is_nan x || is_infinity x || is_zero x = true.
Proof.
  intros Hx. unfold is_nan, is_infinity, is_zero.
  rewrite !eqb_spec, abs_spec.
  change (Prim2SF infinity) with (S754_infinity false).
  change (Prim2SF zero) with (S754_zero false).
  destruct (Prim2SF x) as [s | s | | s m e]; cbn.
  - reflexivity.
  - destruct s; reflexivity.
  - reflexivity.
  - now contradiction (Hx s m e).
Qed.

Lemma Number_of_Z_opp_uint63 (r : int) :
  (0 < Uint63.to_Z r)%Z ->
  JS.Number_of_Z (- Uint63.to_Z r) = (- of_uint63 r)%float.
Proof.
  intros Hr. unfold JS.Number_of_Z.
  rewrite <- (SF2Prim_Prim2SF (- of_uint63 r)). f_equal.
  rewrite opp_spec, of_uint63_spec.
  destruct (Uint63.to_Z r) as [| p | p]; try lia.
  cbn [Z.opp binary_normalize]. unfold binary_round.
  destruct (shl_align p 0 _) as [mz ez].
  unfold binary_round_aux.
  destruct (shr_fexp _ _ _ _ _) as [mrs' e'].
  destruct (shr_fexp _ _ _ _ _) as [mrs'' e''].
  destruct (shr_m mrs''); cbn; try reflexivity.
  destruct (e'' <=? _)%Z; reflexivity.
Qed.

Lemma round_down_scaled (c A B : Z) :
  (0 < c)%Z -> (0 < B)%Z ->
  ((c * A) / (c * B) = A / B)%Z.
Proof. intros Hc HB. apply Z.div_mul_cancel_l; lia. Qed.

Lemma round_up_scaled (c A B : Z) :
  (0 < c)%Z -> (0 < B)%Z ->
  ((c * A - 1) / (c * B) = (A - 1) / B)%Z.
Proof.
  intros Hc HB. rewrite <- Z.div_div by lia. f_equal.
  symmetry. apply (Z.div_unique _ _ _ (c - 1)); [lia | ring].
Qed.

Lemma round_negative (A B : Z) :
  (0 < B)%Z -> ((B - A) / B = - ((A - 1) / B))%Z.
Proof.
  intros HB.
  pose proof (Z.div_mod (A - 1) B ltac:(lia)) as Hdm.
  pose proof (Z.mod_pos_bound (A - 1) B HB) as Hr.
  symmetry. apply (Z.div_unique _ _ _ (B - 1 - (A - 1) mod B)); [lia |].
  set (q := ((A - 1) / B)%Z) in *. set (t := ((A - 1) mod B)%Z) in *.
  replace (B * - q)%Z with (- (B * q))%Z by ring. lia.
Qed.

Lemma uint63_leb_false (a b : int) :
  (a <=? b)%uint63 = false -> (Uint63.to_Z b < Uint63.to_Z a)%Z.
Proof.
  intros Hf. destruct (Z_lt_le_dec (Uint63.to_Z b) (Uint63.to_Z a)) as [Hlt | Hle];
    [exact Hlt |].
  apply Uint63.leb_spec in Hle. congruence.
Qed.

Lemma uint63_eqb_zero (r : int) :
  (r =? 0)%uint63 = (Uint63.to_Z r =? 0)%Z.
Proof.
  destruct (r =? 0)%uint63 eqn:Hr.
  - apply Uint63.eqb_correct in Hr. subst. reflexivity.
  - symmetry. apply Z.eqb_neq. intros Hz.
    assert (r = 0%uint63) by (apply Uint63.to_Z_inj; exact Hz).
    subst. discriminate.
Qed.

(** The computation on the machine representation is [Math.round]. *)
Theorem Math_round_fast_correct (x : JS.Number) :
  JS.Math_round_fast x = JS.Math_round x.
Proof.
  unfold JS.Math_round_fast, JS.Math_round.
  destruct (Prim2SF x) as [s | s | | s m e] eqn:Hx;
    try (rewrite special_classified;
         [reflexivity | intros; rewrite Hx; discriminate]).
  destruct (finite_classified x s m e Hx) as (Hnan & Hinf & Hzero & Hneg).
  rewrite Hnan, Hinf, Hzero, Hneg. cbn [orb].
  destruct (finite_valid x s m e Hx) as (Hd & Hcanon & He).
  destruct (finite_frshiftexp x s m e Hx) as (HM & Hse).
  pose proof (digits2_bound m) as Hm.
  set (d := Zpos (digits2_pos m)) in *.
  assert (Hdpos : (0 < d)%Z) by (unfold d; lia).
  destruct (frshiftexp x) as [f se]. cbn [fst snd] in HM, Hse.
  set (Mi := normfr_mantissa f) in *.
  assert (Hwb : wB = 9223372036854775808%Z) by reflexivity.
  destruct (2154 <=? se)%uint63 eqn:Htop.
  { apply Uint63.leb_spec in Htop. change (Uint63.to_Z 2154) with 2154%Z in Htop.
    destruct (Z.leb_spec 0 e) as [_ | Hlt]; [reflexivity | lia]. }
  apply uint63_leb_false in Htop.
  change (Uint63.to_Z 2154) with 2154%Z in Htop.
  destruct (Z.leb_spec 0 e) as [Hge | Hlt]; [lia |].
  set (k := (2154 - se)%uint63).
  assert (Hk : Uint63.to_Z k = (53 - d - e)%Z).
  { unfold k. rewrite Uint63.sub_spec.
    change (Uint63.to_Z 2154) with 2154%Z. rewrite Hse.
    rewrite Z.mod_small; lia. }
  rewrite Z.shiftr_div_pow2, Z.shiftl_1_l by lia.
  set (c := (2 ^ (53 - d))%Z) in *.
  assert (Hc : (0 < c)%Z) by (unfold c; apply Z.pow_pos_nonneg; lia).
  assert (Hpe : (0 < 2 ^ (- e))%Z) by (apply Z.pow_pos_nonneg; lia).
  assert (HB : (2 ^ (1 - e) = 2 * 2 ^ (- e))%Z).
  { replace (1 - e)%Z with (Z.succ (- e)) by lia. apply Z.pow_succ_r. lia. }
  assert (Hck : (2 ^ Uint63.to_Z k = c * 2 ^ (- e))%Z).
  { rewrite Hk. unfold c. rewrite <- Z.pow_add_r by lia. f_equal; lia. }
  destruct (60 <=? k)%uint63 eqn:Hbig.
  - apply Uint63.leb_spec in Hbig. change (Uint63.to_Z 60) with 60%Z in Hbig.
    change (0 =? 0)%uint63 with true. cbn iota.
    assert (Hsmall : (2 * Zpos m < 2 ^ (- e))%Z).
    { apply Z.lt_le_trans with (2 ^ (d + 1))%Z.
      - rewrite Z.pow_add_r, Z.pow_1_r by lia. lia.
      - apply Z.pow_le_mono_r; lia. }
    rewrite Z.div_small; [reflexivity |].
    destruct s; cbn [cond_Zopp]; lia.
  - apply uint63_leb_false in Hbig. change (Uint63.to_Z 60) with 60%Z in Hbig.
    pose proof (Uint63.to_Z_bounded k) as Hkb.
    assert (HMb : (Uint63.to_Z Mi < 2 ^ 53)%Z).
    { assert (Hsplit : (2 ^ 53 = 2 ^ d * c)%Z).
      { unfold c. rewrite <- Z.pow_add_r by lia. f_equal; lia. }
      rewrite HM, Hsplit. apply Z.mul_lt_mono_pos_r; assumption. }
    assert (Hkpow : (2 ^ Uint63.to_Z k < 2 ^ 60)%Z)
      by (apply Z.pow_lt_mono_r; lia).
    change (2 ^ 53)%Z with 9007199254740992%Z in HMb.
    change (2 ^ 60)%Z with 1152921504606846976%Z in Hkpow.
    assert (H2M : Uint63.to_Z (2 * Mi) = (2 * Uint63.to_Z Mi)%Z).
    { rewrite Uint63.mul_spec. change (Uint63.to_Z 2) with 2%Z.
      pose proof (Uint63.to_Z_bounded Mi). rewrite Z.mod_small; lia. }
    assert (Hlsl : Uint63.to_Z (1 << k) = (2 ^ Uint63.to_Z k)%Z).
    { rewrite Uint63.lsl_spec. change (Uint63.to_Z 1) with 1%Z.
      rewrite Z.mul_1_l, Z.mod_small; lia. }
    assert (Hk1 : Uint63.to_Z (k + 1) = (Uint63.to_Z k + 1)%Z).
    { rewrite Uint63.add_spec. change (Uint63.to_Z 1) with 1%Z.
      rewrite Z.mod_small; lia. }
    assert (Hsum : Uint63.to_Z (2 * Mi + (1 << k))
                   = (c * (2 * Zpos m + 2 ^ (- e)))%Z).
    { rewrite Uint63.add_spec, H2M, Hlsl, Z.mod_small by lia.
      rewrite HM, Hck. ring. }
    assert (Hden : (2 ^ (Uint63.to_Z k + 1) = c * 2 ^ (1 - e))%Z).
    { rewrite Z.pow_add_r, Z.pow_1_r, Hck, HB by lia. ring. }
    assert (HBpos : (0 < 2 ^ (1 - e))%Z) by lia.
    destruct s; cbn [cond_Zopp].
    + set (r := ((2 * Mi + (1 << k) - 1) >> (k + 1))%uint63).
      assert (Hr : Uint63.to_Z r
                   = ((2 * Zpos m + 2 ^ (- e) - 1) / 2 ^ (1 - e))%Z).
      { unfold r. rewrite Uint63.lsr_spec, Hk1, Hden, Uint63.sub_spec, Hsum.
        change (Uint63.to_Z 1) with 1%Z.
        rewrite Z.mod_small by lia.
        apply round_up_scaled; assumption. }
      replace (2 * - Zpos m + 2 ^ (- e))%Z
        with (2 ^ (1 - e) - (2 * Zpos m + 2 ^ (- e)))%Z by lia.
      rewrite round_negative, <- Hr by assumption.
      rewrite uint63_eqb_zero.
      destruct (Z.eqb_spec (Uint63.to_Z r) 0) as [Hz | Hnz].
      * rewrite Hz. reflexivity.
      * pose proof (Uint63.to_Z_bounded r).
        destruct (Z.eqb_spec (- Uint63.to_Z r) 0) as [Hz' | _]; [lia |].
        symmetry. apply Number_of_Z_opp_uint63. lia.
    + set (r := ((2 * Mi + (1 << k)) >> (k + 1))%uint63).
      assert (Hr : Uint63.to_Z r
                   = ((2 * Zpos m + 2 ^ (- e)) / 2 ^ (1 - e))%Z).
      { unfold r. rewrite Uint63.lsr_spec, Hk1, Hden, Hsum.
        apply round_down_scaled; assumption. }
      rewrite <- Hr, uint63_eqb_zero.
      destruct (Z.eqb_spec (Uint63.to_Z r) 0) as [Hz | Hnz]; [reflexivity |].
      symmetry. apply Number_of_Z_of_uint63.
Qed.

(** *** Whole Numbers *)

Lemma to_Z_of_nat (k : nat) :
  (Z.of_nat k < wB)%Z -> Uint63.to_Z (Uint63.of_Z (Z.of_nat k)) = Z.of_nat k.
Proof.
  intros Hk. rewrite Uint63.of_Z_spec. apply Z.mod_small. lia.
Qed.

Lemma Number_of_nat_of_uint63 (k : nat) :
  (Z.of_nat k < wB)%Z ->
  JS.Number_of_nat k = of_uint63 (Uint63.of_Z (Z.of_nat k)).
Proof.
  intros Hk. unfold JS.Number_of_nat.
  rewrite <- (to_Z_of_nat k Hk) at 1. apply Number_of_Z_of_uint63.
Qed.

Lemma digits2_lower (m : positive) :
  (2 ^ (Zpos (digits2_pos m) - 1) <= Zpos m)%Z.
Proof.
  induction m as [m IH | m IH |]; cbn [digits2_pos].
  - rewrite Pos2Z.inj_succ.
    replace (Z.succ (Zpos (digits2_pos m)) - 1)%Z
      with (Z.succ (Zpos (digits2_pos m) - 1)) by lia.
    rewrite Z.pow_succ_r by lia. lia.
  - rewrite Pos2Z.inj_succ.
    replace (Z.succ (Zpos (digits2_pos m)) - 1)%Z
      with (Z.succ (Zpos (digits2_pos m) - 1)) by lia.
    rewrite Z.pow_succ_r by lia. lia.
  - reflexivity.
Qed.

Lemma shr_1_halves (mrs : shr_record) :
  (0 <= shr_m mrs)%Z -> shr_m (shr_1 mrs) = (shr_m mrs / 2)%Z.
Proof.
  destruct mrs as [m r s]. cbn [shr_m]. intros Hm.
  destruct m as [| p | p]; [reflexivity | | lia].
  destruct p as [p | p |]; cbn [shr_1 shr_m].
  - rewrite Pos2Z.inj_xI. apply (Z.div_unique _ _ _ 1); lia.
  - rewrite Pos2Z.inj_xO. apply (Z.div_unique _ _ _ 0); lia.
  - reflexivity.
Qed.

Lemma pow2_double (n : positive) :
  (2 ^ Zpos n~0 = 2 ^ Zpos n * 2 ^ Zpos n)%Z
  /\ (2 ^ Zpos n~1 = 2 * (2 ^ Zpos n * 2 ^ Zpos n))%Z.
Proof.
  replace (Zpos n~0) with (Zpos n + Zpos n)%Z by lia.
  replace (Zpos n~1) with (Zpos n + Zpos n + 1)%Z by lia.
  rewrite !Z.pow_add_r, Z.pow_1_r by lia. split; ring.
Qed.

Lemma iter_shr_1_divides (n : positive) :
  forall mrs : shr_record,
    (0 <= shr_m mrs)%Z ->
    shr_m (iter_pos shr_1 n mrs) = (shr_m mrs / 2 ^ Zpos n)%Z.
Proof.
  induction n as [n IH | n IH |]; intros mrs Hm; cbn [iter_pos].
  - assert (Hp : (0 < 2 ^ Zpos n)%Z) by (apply Z.pow_pos_nonneg; lia).
    assert (H1 : (0 <= shr_m (shr_1 mrs))%Z).
    { rewrite shr_1_halves by assumption. apply Z.div_pos; lia. }
    assert (H2 : (0 <= shr_m (iter_pos shr_1 n (shr_1 mrs)))%Z).
    { rewrite IH by assumption. apply Z.div_pos; assumption. }
    rewrite IH, IH, shr_1_halves by assumption.
    rewrite !Z.div_div by lia.
    f_equal. rewrite (proj2 (pow2_double n)). ring.
  - assert (Hp : (0 < 2 ^ Zpos n)%Z) by (apply Z.pow_pos_nonneg; lia).
    assert (H2 : (0 <= shr_m (iter_pos shr_1 n mrs))%Z).
    { rewrite IH by assumption. apply Z.div_pos; assumption. }
    rewrite IH, IH by assumption.
    rewrite Z.div_div by lia.
    f_equal. rewrite (proj1 (pow2_double n)). ring.
  - rewrite shr_1_halves by assumption. reflexivity.
Qed.

(** Rounding a positive mantissa whose exponent is not small keeps it
    positive. *)
Lemma shr_fexp_positive (p : positive) (e : Z) (l : location) :
  (-52 <= e)%Z ->
  (0 < shr_m (fst (shr_fexp prec emax (Zpos p) e l)))%Z
  /\ (-52 <= snd (shr_fexp prec emax (Zpos p) e l))%Z.
Proof.
  intros He. unfold shr_fexp, shr, fexp, SpecFloat.emin, prec, emax.
  cbn [Zdigits2].
  pose proof (digits2_lower p) as Hlow.
  set (D := Zpos (digits2_pos p)) in *.
  assert (HD : (0 < D)%Z) by (unfold D; lia).
  assert (Hm : shr_m (shr_record_of_loc (Zpos p) l) = Zpos p).
  { destruct l as [| []]; reflexivity. }
  destruct (Z.max (D + e - 53) (3 - 1024 - 53) - e)%Z as [| n | n] eqn:Hn;
    cbn [fst snd]; try (rewrite Hm; lia).
  rewrite iter_shr_1_divides, Hm by (rewrite Hm; lia).
  assert (Hshift : (Zpos n = D - 53)%Z) by lia.
  split; [| lia].
  apply Z.div_str_pos. split; [apply Z.pow_pos_nonneg; lia |].
  apply Z.le_trans with (2 ^ (D - 1))%Z; [| assumption].
  apply Z.pow_le_mono_r; lia.
Qed.

Lemma binary_round_aux_positive (p : positive) (e : Z) (l : location) :
  (-52 <= e)%Z ->
  binary_round_aux prec emax false (Zpos p) e l = S754_infinity false
  \/ exists m e', binary_round_aux prec emax false (Zpos p) e l
                  = S754_finite false m e'.
Proof.
  intros He. unfold binary_round_aux.
  destruct (shr_fexp_positive p e l He) as [Hm1 He1].
  destruct (shr_fexp prec emax (Zpos p) e l) as [mrs' e'].
  cbn [fst snd] in Hm1, He1.
  assert (Hround : (0 < round_nearest_even (shr_m mrs')
                         (loc_of_shr_record mrs'))%Z).
  { unfold round_nearest_even.
    destruct (loc_of_shr_record mrs') as [| []]; try lia.
    destruct (Z.even (shr_m mrs')); lia. }
  destruct (round_nearest_even (shr_m mrs') (loc_of_shr_record mrs'))
    as [| q | q]; try lia.
  destruct (shr_fexp_positive q e' loc_Exact He1) as [Hm2 _].
  destruct (shr_fexp prec emax (Zpos q) e' loc_Exact) as [mrs'' e''].
  cbn [fst] in Hm2.
  destruct (shr_m mrs'') as [| m | m]; try lia.
  destruct (e'' <=? emax - prec)%Z; [right; now exists m, e'' | now left].
Qed.

Lemma binary_normalize_positive (p : positive) :
  binary_normalize prec emax (Zpos p) 0 false = S754_infinity false
  \/ exists m e, binary_normalize prec emax (Zpos p) 0 false
                 = S754_finite false m e.
Proof.
  cbn [binary_normalize]. unfold binary_round, shl_align.
  pose proof (Pos2Z.is_pos (digits2_pos p)) as HD.
  set (D := Zpos (digits2_pos p)) in *.
  unfold fexp, SpecFloat.emin, prec, emax.
  destruct (Z.max (D + 0 - 53) (3 - 1024 - 53) - 0)%Z as [| n | n] eqn:Hn.
  - apply binary_round_aux_positive. lia.
  - apply binary_round_aux_positive. lia.
  - apply binary_round_aux_positive. lia.
Qed.

(** A positive array length is a positive Number. *)
Lemma Number_of_nat_positive (k : nat) :
  0 < k -> (Z.of_nat k < wB)%Z -> (0 <? JS.Number_of_nat k)%float = true.
Proof.
  intros Hk Hwb. rewrite Number_of_nat_of_uint63 by assumption.
  rewrite ltb_spec, of_uint63_spec, to_Z_of_nat by assumption.
  change (Prim2SF 0) with (S754_zero false).
  destruct (Z.of_nat k) as [| p | p] eqn:Hp; try lia.
  destruct (binary_normalize_positive p) as [-> | (m & e & ->)]; reflexivity.
Qed.

(** ** Rounding to 53 bits *)

Lemma digits2_at_most (m : positive) (k : Z) :
  (Zpos m < 2 ^ k)%Z -> (0 <= k)%Z -> (Zpos (digits2_pos m) <= k)%Z.
Proof.
  intros Hm Hk. pose proof (digits2_lower m) as Hlow.
  destruct (Z_le_gt_dec (Zpos (digits2_pos m)) k) as [Hle | Hgt];
    [exact Hle | exfalso].
  assert (2 ^ k <= 2 ^ (Zpos (digits2_pos m) - 1))%Z
    by (apply Z.pow_le_mono_r; lia).
  lia.
Qed.

Lemma digits2_at_least (m : positive) (k : Z) :
  (2 ^ k <= Zpos m)%Z -> (0 <= k)%Z -> (k < Zpos (digits2_pos m))%Z.
Proof.
  intros Hm Hk. pose proof (digits2_bound m) as Hup.
  destruct (Z_lt_le_dec k (Zpos (digits2_pos m))) as [Hlt | Hge];
    [exact Hlt | exfalso].
  assert (2 ^ Zpos (digits2_pos m) <= 2 ^ k)%Z
    by (apply Z.pow_le_mono_r; lia).
  lia.
Qed.

(** The shift that leaves 53 bits of a mantissa with more than 53. *)
Lemma shr_fexp_value (p : positive) (e : Z) (l : location) :
  (-1074 <= Zpos (digits2_pos p) + e - 53)%Z ->
  shr_m (fst (shr_fexp prec emax (Zpos p) e l))
  = (Zpos p / 2 ^ Z.max (Zpos (digits2_pos p) - 53) 0)%Z
  /\ snd (shr_fexp prec emax (Zpos p) e l)
     = (e + Z.max (Zpos (digits2_pos p) - 53) 0)%Z.
Proof.
  intros He. unfold shr_fexp, shr, fexp, SpecFloat.emin, prec, emax.
  cbn [Zdigits2].
  set (D := Zpos (digits2_pos p)) in *.
  assert (Hm : shr_m (shr_record_of_loc (Zpos p) l) = Zpos p).
  { destruct l as [| []]; reflexivity. }
  destruct (Z.max (D + e - 53) (3 - 1024 - 53) - e)%Z as [| n | n] eqn:Hn;
    cbn [fst snd].
  - replace (Z.max (D - 53) 0) with 0%Z by lia.
    rewrite Hm, Z.pow_0_r, Z.div_1_r. split; [reflexivity | lia].
  - replace (Z.max (D - 53) 0) with (Zpos n) by lia.
    rewrite iter_shr_1_divides, Hm by (rewrite Hm; lia). split; reflexivity.
  - replace (Z.max (D - 53) 0) with 0%Z by lia.
    rewrite Hm, Z.pow_0_r, Z.div_1_r. split; [reflexivity | lia].
Qed.

Lemma round_nearest_even_bounds (m : Z) (l : location) :
  (m <= round_nearest_even m l <= m + 1)%Z.
Proof.
  unfold round_nearest_even. destruct l as [| []]; try lia.
  destruct (Z.even m); lia.
Qed.

(** Rounding a mantissa of at least 53 bits: the result is finite, its
    exponent is raised by the bits dropped, and it is within two units
    of the last place kept. *)
Lemma binary_round_aux_value (p : positive) (e : Z) (l : location) :
  (53 <= Zpos (digits2_pos p))%Z ->
  (-1074 <= e)%Z ->
  (Zpos (digits2_pos p) + e <= 1023)%Z ->
  exists (M : positive) (n : Z),
    binary_round_aux prec emax false (Zpos p) e l
    = S754_finite false M (e + n)
    /\ (Zpos (digits2_pos p) - 53 <= n <= Zpos (digits2_pos p) - 52)%Z
    /\ (Zpos p - 2 * 2 ^ n <= Zpos M * 2 ^ n <= Zpos p + 2 ^ n)%Z
    /\ (2 ^ 51 <= Zpos M)%Z.
Proof.
  intros Hd He Hmax. unfold binary_round_aux.
  pose proof (digits2_bound p) as Hup. pose proof (digits2_lower p) as Hlow.
  set (d := Zpos (digits2_pos p)) in *.
  destruct (shr_fexp_value p e l ltac:(fold d; lia)) as [Hm1 He1].
  fold d in Hm1, He1.
  destruct (shr_fexp prec emax (Zpos p) e l) as [mrs' e'].
  cbn [fst snd] in Hm1, He1.
  replace (Z.max (d - 53) 0) with (d - 53)%Z in Hm1, He1 by lia.
  set (n1 := (d - 53)%Z) in *.
  assert (Hn1 : (0 <= n1)%Z) by (unfold n1; lia).
  set (P := (2 ^ n1)%Z) in *.
  assert (HP : (0 < P)%Z) by (unfold P; apply Z.pow_pos_nonneg; lia).
  assert (Hsplit_low : (2 ^ (d - 1) = P * 2 ^ 52)%Z).
  { unfold P, n1. rewrite <- Z.pow_add_r by lia. f_equal; lia. }
  assert (Hsplit_up : (2 ^ d = P * 2 ^ 53)%Z).
  { unfold P, n1. rewrite <- Z.pow_add_r by lia. f_equal; lia. }
  set (M1 := shr_m mrs') in *.
  assert (HM1lo : (2 ^ 52 <= M1)%Z).
  { rewrite Hm1. apply Z.div_le_lower_bound; lia. }
  assert (HM1up : (M1 < 2 ^ 53)%Z).
  { rewrite Hm1. apply Z.div_lt_upper_bound; lia. }
  assert (HM1mul : (M1 * P <= Zpos p < M1 * P + P)%Z).
  { rewrite Hm1. pose proof (Z.div_mod (Zpos p) P ltac:(lia)) as Hdm.
    pose proof (Z.mod_pos_bound (Zpos p) P HP) as Hmod.
    rewrite (Z.mul_comm (Zpos p / P)). lia. }
  pose proof (round_nearest_even_bounds M1 (loc_of_shr_record mrs'))
    as Hround.
  change (2 ^ 52)%Z with 4503599627370496%Z in *.
  change (2 ^ 53)%Z with 9007199254740992%Z in *.
  destruct (round_nearest_even M1 (loc_of_shr_record mrs'))
    as [| q | q] eqn:Hq; try lia.
  assert (Hdq_lo : (52 < Zpos (digits2_pos q))%Z).
  { apply digits2_at_least; [| lia].
    change (2 ^ 52)%Z with 4503599627370496%Z. lia. }
  assert (Hdq_up : (Zpos (digits2_pos q) <= 54)%Z).
  { apply digits2_at_most; [| lia].
    change (2 ^ 54)%Z with 18014398509481984%Z. lia. }
  destruct (shr_fexp_value q e' loc_Exact ltac:(lia)) as [Hm2 He2].
  destruct (shr_fexp prec emax (Zpos q) e' loc_Exact) as [mrs'' e''].
  cbn [fst snd] in Hm2, He2.
  set (n2 := Z.max (Zpos (digits2_pos q) - 53) 0) in *.
  assert (Hn2 : n2 = 0%Z \/ n2 = 1%Z) by (unfold n2; lia).
  assert (Hlast : (e'' <=? emax - prec)%Z = true).
  { apply Z.leb_le. unfold emax, prec. lia. }
  destruct Hn2 as [Hz | Ho].
  - rewrite Hz, Z.pow_0_r, Z.div_1_r in Hm2. rewrite Hm2, Hlast.
    exists q, n1. split; [f_equal; lia |].
    split; [unfold n1; lia |]. fold P. split; [| lia].
    assert (Hcase : Zpos q = M1 \/ Zpos q = (M1 + 1)%Z) by lia.
    destruct Hcase as [-> | ->]; lia.
  - rewrite Ho in Hm2. change (2 ^ 1)%Z with 2%Z in Hm2.
    assert (Hhalf : (2 * (Zpos q / 2) <= Zpos q < 2 * (Zpos q / 2) + 2)%Z).
    { pose proof (Z.div_mod (Zpos q) 2 ltac:(lia)).
      pose proof (Z.mod_pos_bound (Zpos q) 2 ltac:(lia)). lia. }
    destruct (shr_m mrs'') as [| M | M] eqn:HM; try lia.
    rewrite Hlast. exists M, (n1 + 1)%Z. split; [f_equal; lia |].
    split; [unfold n1; lia |].
    rewrite Z.pow_add_r, Z.pow_1_r by lia. fold P. split; [| lia].
    assert (Hcase : Zpos q = M1 \/ Zpos q = (M1 + 1)%Z) by lia.
    set (MP := (Zpos M * P)%Z).
    assert (HMP : (MP = Zpos M * P)%Z) by reflexivity.
    assert (H1 : (2 * MP <= Zpos q * P)%Z).
    { unfold MP. replace (2 * (Zpos M * P))%Z with (2 * Zpos M * P)%Z by ring.
      apply Z.mul_le_mono_nonneg_r; lia. }
    assert (H2 : (Zpos q * P <= 2 * MP + P)%Z).
    { unfold MP. replace (2 * (Zpos M * P) + P)%Z
        with ((2 * Zpos M + 1) * P)%Z by ring.
      apply Z.mul_le_mono_nonneg_r; lia. }
    replace (Zpos M * (P * 2))%Z with (2 * MP)%Z by (unfold MP; ring).
    destruct Hcase as [Hc | Hc]; rewrite Hc in H1, H2.
    + lia.
    + replace ((M1 + 1) * P)%Z with (M1 * P + P)%Z in H1, H2 by ring. lia.
Qed.

(** A 53-bit mantissa is kept as it is. *)
Lemma shr_fexp_exact (m : positive) (e : Z) :
  Zpos (digits2_pos m) = 53%Z -> (-1074 <= e)%Z ->
  shr_fexp prec emax (Zpos m) e loc_Exact
  = (shr_record_of_loc (Zpos m) loc_Exact, e).
Proof.
  intros Hd He. unfold shr_fexp, fexp, SpecFloat.emin, prec, emax.
  cbn [Zdigits2]. rewrite Hd.
  replace (Z.max (53 + e - 53) (3 - 1024 - 53) - e)%Z with 0%Z by lia.
  reflexivity.
Qed.

Lemma binary_round_aux_exact (s : bool) (m : positive) (e : Z) :
  Zpos (digits2_pos m) = 53%Z -> (-1074 <= e <= 971)%Z ->
  binary_round_aux prec emax s (Zpos m) e loc_Exact
  = S754_finite s m e.
Proof.
  intros Hd He. unfold binary_round_aux.
  rewrite (shr_fexp_exact m e Hd) by lia.
  cbn [shr_record_of_loc shr_m loc_of_shr_record round_nearest_even].
  rewrite (shr_fexp_exact m e Hd) by lia.
  cbn [shr_record_of_loc shr_m].
  replace (e <=? emax - prec)%Z with true; [reflexivity |].
  symmetry. apply Z.leb_le. unfold emax, prec. lia.
Qed.

(** An integer below [2^53] in magnitude is a Number: its mantissa is
    the magnitude shifted up to 53 bits. *)
Lemma binary_round_exact (s : bool) (p : positive) :
  (Zpos p < 2 ^ 53)%Z ->
  exists (m : positive) (e : Z),
    binary_round prec emax s p 0 = S754_finite s m e
    /\ Zpos (digits2_pos m) = 53%Z
    /\ (-52 <= e <= 0)%Z
    /\ Zpos m = (Zpos p * 2 ^ (- e))%Z.
Proof.
  intros Hx. unfold binary_round, shl_align.
  pose proof (digits2_at_most p 53 ltac:(lia) ltac:(lia)) as Hup.
  pose proof (digits2_bound p) as Hlt. pose proof (digits2_lower p) as Hge.
  pose proof (Pos2Z.is_pos (digits2_pos p)) as HD.
  set (D := Zpos (digits2_pos p)) in *.
  unfold fexp, SpecFloat.emin, prec, emax.
  destruct (Z.max (D + 0 - 53) (3 - 1024 - 53) - 0)%Z as [| n | n] eqn:Hn;
    try lia.
  - exists p, 0%Z. rewrite binary_round_aux_exact by (fold D; lia).
    split; [reflexivity |]. split; [fold D; lia |]. split; [lia |].
    rewrite Z.pow_0_r. lia.
  - assert (Hshift : (Zpos n = 53 - D)%Z) by lia.
    assert (Hval : Zpos (Pos.iter xO p n) = (Zpos p * 2 ^ (53 - D))%Z).
    { rewrite Zpos_iter_xO, Hshift. reflexivity. }
    assert (Hsplit : (2 ^ 53 = 2 ^ D * 2 ^ (53 - D))%Z).
    { rewrite <- Z.pow_add_r by lia. f_equal; lia. }
    assert (Hsplit' : (2 ^ 52 = 2 ^ (D - 1) * 2 ^ (53 - D))%Z).
    { rewrite <- Z.pow_add_r by lia. f_equal; lia. }
    assert (Hpow : (0 < 2 ^ (53 - D))%Z) by (apply Z.pow_pos_nonneg; lia).
    assert (Hdigits : Zpos (digits2_pos (Pos.iter xO p n)) = 53%Z).
    { apply Z.le_antisymm.
      - apply digits2_at_most; [| lia]. rewrite Hval, Hsplit.
        apply Z.mul_lt_mono_pos_r; assumption.
      - apply Z.lt_pred_le.
        apply digits2_at_least; [| lia]. rewrite Hval.
        change (Z.pred 53) with 52%Z. rewrite Hsplit'.
        apply Z.mul_le_mono_nonneg_r; lia. }
    exists (Pos.iter xO p n), (Z.max (D + 0 - 53) (3 - 1024 - 53)).
    rewrite binary_round_aux_exact by (try assumption; lia).
    split; [reflexivity |]. split; [assumption |]. split; [lia |].
    rewrite Hval. f_equal. f_equal. lia.
Qed.

Lemma whole_Number_finite (x : int) :
  (0 < Uint63.to_Z x < 2 ^ 53)%Z ->
  exists (m : positive) (e : Z),
    Prim2SF (of_uint63 x) = S754_finite false m e
    /\ Zpos (digits2_pos m) = 53%Z
    /\ (-52 <= e <= 0)%Z
    /\ Zpos m = (Uint63.to_Z x * 2 ^ (- e))%Z.
Proof.
  intros Hx. rewrite of_uint63_spec.
  destruct (Uint63.to_Z x) as [| p | p]; try lia.
  exact (binary_round_exact false p (proj2 Hx)).
Qed.

Lemma Number_of_Z_finite (z : Z) :
  z <> 0%Z -> (Z.abs z < 2 ^ 53)%Z ->
  exists (m : positive) (e : Z),
    Prim2SF (JS.Number_of_Z z) = S754_finite (z <? 0)%Z m e
    /\ (e <= 0)%Z
    /\ Zpos m = (Z.abs z * 2 ^ (- e))%Z.
Proof.
  intros Hz Hsmall. unfold JS.Number_of_Z.
  assert (Hfound : exists (m : positive) (e : Z),
             binary_normalize prec emax z 0 false
             = S754_finite (z <? 0)%Z m e
             /\ Zpos (digits2_pos m) = 53%Z
             /\ (-52 <= e <= 0)%Z
             /\ Zpos m = (Z.abs z * 2 ^ (- e))%Z).
  { destruct z as [| p | p]; [contradiction | |].
    - exact (binary_round_exact false p Hsmall).
    - exact (binary_round_exact true p Hsmall). }
  destruct Hfound as (m & e & Heq & Hd & He & Hm).
  exists m, e. rewrite Heq. split; [| split; [lia | exact Hm]].
  apply Prim2SF_SF2Prim. cbn [SpecFloat.valid_binary].
  unfold bounded, canonical_mantissa, fexp, SpecFloat.emin, prec, emax.
  rewrite Hd. apply andb_true_iff.
  split; [apply Z.eqb_eq | apply Z.leb_le]; lia.
Qed.

(** The integer of a Number whose mantissa is that integer shifted up. *)
Lemma integral_value_whole
  (x : JS.Number) (s : bool) (m : positive) (e z : Z) :
  Prim2SF x = S754_finite s m e -> (e <= 0)%Z ->
  Zpos m = (z * 2 ^ (- e))%Z ->
  JS.integral_value x = Some (cond_Zopp s z).
Proof.
  intros Hx He Hm. unfold JS.integral_value. rewrite Hx.
  destruct (Z.leb_spec 0 e) as [Hge | Hlt].
  - assert (e = 0%Z) by lia. subst e.
    rewrite Z.shiftl_mul_pow2, Hm by lia.
    change (2 ^ (- 0))%Z with 1%Z. change (2 ^ 0)%Z with 1%Z.
    rewrite !Z.mul_1_r. reflexivity.
  - assert (HP : (0 < 2 ^ (- e))%Z) by (apply Z.pow_pos_nonneg; lia).
    rewrite Z.shiftr_div_pow2, Z.shiftl_mul_pow2 by lia.
    rewrite Hm, Z.div_mul by lia. rewrite Z.eqb_refl. reflexivity.
Qed.

(** *** Numbers as reals *)

Lemma pow2_pos (e : Z) : (0 < powerRZ 2 e)%R.
Proof. apply powerRZ_lt. lra. Qed.

Lemma pow2_add (a b : Z) :
  powerRZ 2 (a + b) = (powerRZ 2 a * powerRZ 2 b)%R.
Proof. apply powerRZ_add. lra. Qed.

Lemma pow2_IZR (k : Z) : (0 <= k)%Z -> powerRZ 2 k = IZR (2 ^ k).
Proof.
  intros Hk. rewrite <- (Z2Nat.id k Hk).
  rewrite <- pow_powerRZ, pow_IZR. reflexivity.
Qed.

Lemma pow2_le (a b : Z) :
  (a <= b)%Z -> (powerRZ 2 a <= powerRZ 2 b)%R.
Proof.
  intros Hab. replace b with (a + (b - a))%Z by lia.
  rewrite pow2_add, (pow2_IZR (b - a)) by lia.
  assert (H1 : (1 <= IZR (2 ^ (b - a)))%R).
  { apply IZR_le.
    assert (0 < 2 ^ (b - a))%Z by (apply Z.pow_pos_nonneg; lia). lia. }
  pose proof (pow2_pos a). nra.
Qed.

Lemma pow2_lt_inv (a b : Z) :
  (powerRZ 2 a < powerRZ 2 b)%R -> (a < b)%Z.
Proof.
  intros Hlt. destruct (Z_lt_le_dec a b) as [H | H]; [exact H | exfalso].
  apply pow2_le in H. lra.
Qed.

Lemma pow2_opp (e : Z) : (powerRZ 2 (- e) * powerRZ 2 e = 1)%R.
Proof.
  rewrite <- pow2_add. replace (- e + e)%Z with 0%Z by lia. reflexivity.
Qed.

Lemma Number_value_finite (x : JS.Number) (s : bool) (m : positive) (e : Z) :
  Prim2SF x = S754_finite s m e ->
  JS.Number_value x = (IZR (cond_Zopp s (Zpos m)) * powerRZ 2 e)%R.
Proof. intros Hx. unfold JS.Number_value. rewrite Hx. reflexivity. Qed.

Ltac push_IZR H :=
  repeat first [ rewrite plus_IZR in H | rewrite minus_IZR in H
               | rewrite mult_IZR in H | rewrite opp_IZR in H ].

Ltac push_IZR_goal :=
  repeat first [ rewrite plus_IZR | rewrite minus_IZR
               | rewrite mult_IZR | rewrite opp_IZR ].

(** [Math.round] of a positive Number with a fraction: the integer [r]
    with [r <= x + 1/2 < r + 1]. *)
Lemma Math_round_half_up (x : JS.Number) (m : positive) (e : Z) :
  Prim2SF x = S754_finite false m e -> (e < 0)%Z ->
  exists r : Z,
    JS.Math_round x = JS.Number_of_Z r
    /\ (IZR r <= JS.Number_value x + / 2 < IZR r + 1)%R.
Proof.
  intros Hx He. rewrite (Number_value_finite x false m e Hx).
  unfold JS.Math_round. rewrite Hx.
  destruct (Z.leb_spec 0 e) as [Hge | _]; [lia |].
  cbn [cond_Zopp].
  rewrite Z.shiftl_1_l, Z.shiftr_div_pow2 by lia.
  set (P := (2 ^ (- e))%Z).
  assert (HP : (0 < P)%Z) by (apply Z.pow_pos_nonneg; lia).
  assert (HD : (2 ^ (1 - e) = 2 * P)%Z).
  { unfold P. replace (1 - e)%Z with (1 + - e)%Z by lia.
    rewrite Z.pow_add_r by lia. reflexivity. }
  rewrite HD. set (r := ((2 * Zpos m + P) / (2 * P))%Z).
  exists r. split.
  - destruct (Z.eqb_spec r 0) as [-> | _]; reflexivity.
  - pose proof (Z.div_mod (2 * Zpos m + P) (2 * P) ltac:(lia)) as Hdm.
    pose proof (Z.mod_pos_bound (2 * Zpos m + P) (2 * P) ltac:(lia)) as Hmod.
    fold r in Hdm.
    assert (Hlow : (2 * (P * r) <= 2 * Zpos m + P)%Z) by lia.
    assert (Hupp : (2 * Zpos m + P < 2 * (P * r) + 2 * P)%Z) by lia.
    apply IZR_le in Hlow. apply IZR_lt in Hupp.
    push_IZR Hlow. push_IZR Hupp.
    assert (Hinv : (IZR P * powerRZ 2 e = 1)%R).
    { unfold P. rewrite <- pow2_IZR by lia. apply pow2_opp. }
    pose proof (pow2_pos e) as Ht.
    set (t := powerRZ 2 e) in *. set (p := IZR P) in *.
    set (v := IZR (Zpos m)) in *. set (z := IZR r) in *.
    assert (Hz : (z = z * (p * t))%R) by (rewrite Hinv; ring).
    split.
    + assert ((2 * (p * z)) * t <= (2 * v + p) * t)%R
        by (apply Rmult_le_compat_r; lra).
      nra.
    + assert ((2 * v + p) * t < (2 * (p * z) + 2 * p) * t)%R
        by (apply Rmult_lt_compat_r; lra).
      nra.
Qed.

(** Rounding to 53 bits, as reals: the error is at most [2^(e + d - 51)]
    for a mantissa of [d] bits at exponent [e]. *)
Lemma binary_round_aux_error (p : positive) (e : Z) (l : location) :
  (53 <= Zpos (digits2_pos p))%Z ->
  (-1074 <= e)%Z ->
  (Zpos (digits2_pos p) + e <= 1023)%Z ->
  exists (M : positive) (E : Z),
    binary_round_aux prec emax false (Zpos p) e l = S754_finite false M E
    /\ (e <= E <= e + Zpos (digits2_pos p) - 52)%Z
    /\ (2 ^ 51 <= Zpos M)%Z
    /\ (- powerRZ 2 (e + Zpos (digits2_pos p) - 51)
        <= IZR (Zpos M) * powerRZ 2 E - IZR (Zpos p) * powerRZ 2 e
        <= powerRZ 2 (e + Zpos (digits2_pos p) - 51))%R.
Proof.
  intros Hd He Hmax.
  destruct (binary_round_aux_value p e l Hd He Hmax)
    as (M & n & Heq & Hn & Hnear & HM).
  exists M, (e + n)%Z. split; [exact Heq |]. split; [lia |].
  split; [exact HM |].
  set (d := Zpos (digits2_pos p)) in *.
  assert (Hn0 : (0 <= n)%Z) by lia.
  destruct Hnear as [Hlow Hupp].
  apply IZR_le in Hlow, Hupp.
  push_IZR Hlow. push_IZR Hupp.
  rewrite <- pow2_IZR in Hlow, Hupp by assumption.
  rewrite pow2_add.
  assert (Hstep : (2 * powerRZ 2 (e + n) <= powerRZ 2 (e + d - 51))%R).
  { replace (e + d - 51)%Z with (1 + (e + (d - 52)))%Z by lia.
    rewrite (pow2_add 1). change (powerRZ 2 1) with (2 * 1)%R.
    assert (powerRZ 2 (e + n) <= powerRZ 2 (e + (d - 52)))%R
      by (apply pow2_le; lia).
    lra. }
  rewrite pow2_add in Hstep.
  pose proof (pow2_pos e) as Ht. pose proof (pow2_pos n) as Hu.
  set (t := powerRZ 2 e) in *. set (u := powerRZ 2 n) in *.
  set (a := IZR (Zpos M)) in *. set (b := IZR (Zpos p)) in *.
  assert (H1 : ((b - 2 * u) * t <= a * u * t)%R)
    by (apply Rmult_le_compat_r; lra).
  assert (H2 : (a * u * t <= (b + u) * t)%R)
    by (apply Rmult_le_compat_r; lra).
  split; nra.
Qed.

(** [Math.round] of any finite Number [x]: the integer [r] with
    [r <= x + 1/2 < r + 1], the integer nearest to [x] with halves going
    up. *)
Lemma Math_round_nearest (x : JS.Number) (s : bool) (m : positive) (e : Z) :
  Prim2SF x = S754_finite s m e ->
  exists r : Z,
    JS.integral_value (JS.Math_round x) = Some r
    /\ (IZR r <= JS.Number_value x + / 2 < IZR r + 1)%R.
Proof.
  intros Hx. rewrite (Number_value_finite x s m e Hx).
  destruct (finite_valid x s m e Hx) as (Hd & _ & He). cbv zeta in Hd.
  unfold JS.Math_round. rewrite Hx.
  destruct (Z.leb_spec 0 e) as [Hge | Hlt].
  - exists (cond_Zopp s (Zpos m * 2 ^ e))%Z. split.
    + unfold JS.integral_value. rewrite Hx.
      destruct (Z.leb_spec 0 e) as [_ | Hbad]; [| lia].
      rewrite Z.shiftl_mul_pow2 by lia. reflexivity.
    + assert (Hval : (IZR (cond_Zopp s (Zpos m * 2 ^ e))
                      = IZR (cond_Zopp s (Zpos m)) * powerRZ 2 e)%R).
      { rewrite pow2_IZR by lia.
        destruct s; cbn [cond_Zopp]; rewrite ?opp_IZR, mult_IZR; ring. }
      rewrite Hval. lra.
  - set (v := cond_Zopp s (Zpos m)).
    rewrite Z.shiftl_1_l, Z.shiftr_div_pow2 by lia.
    set (P := (2 ^ (- e))%Z).
    assert (HP : (2 <= P)%Z).
    { change 2%Z with (2 ^ 1)%Z. apply Z.pow_le_mono_r; lia. }
    assert (HD : (2 ^ (1 - e) = 2 * P)%Z).
    { unfold P. replace (1 - e)%Z with (1 + - e)%Z by lia.
      rewrite Z.pow_add_r by lia. reflexivity. }
    rewrite HD. set (r := ((2 * v + P) / (2 * P))%Z).
    pose proof (Z.div_mod (2 * v + P) (2 * P) ltac:(lia)) as Hdm.
    pose proof (Z.mod_pos_bound (2 * v + P) (2 * P) ltac:(lia)) as Hmod.
    fold r in Hdm.
    assert (Hlow : (2 * (P * r) <= 2 * v + P)%Z) by lia.
    assert (Hupp : (2 * v + P < 2 * (P * r) + 2 * P)%Z) by lia.
    exists r. split.
    + destruct (Z.eqb_spec r 0) as [Hz | Hnz].
      * rewrite Hz. destruct s; reflexivity.
      * pose proof (digits2_bound m) as Hm.
        assert (Hpow : (2 ^ Zpos (digits2_pos m) <= 2 ^ 53)%Z)
          by (apply Z.pow_le_mono_r; lia).
        change (2 ^ 53)%Z with 9007199254740992%Z in Hpow.
        assert (Hv : (- 9007199254740992 < v < 9007199254740992)%Z)
          by (unfold v; destruct s; cbn [cond_Zopp]; lia).
        assert (Hr : (Z.abs r < 2 ^ 53)%Z).
        { change (2 ^ 53)%Z with 9007199254740992%Z.
          apply Z.abs_lt. split.
          - destruct (Z_lt_le_dec (- 9007199254740992) r) as [Hok | Hbad];
              [exact Hok | exfalso].
            assert (P * r <= P * (- 9007199254740992))%Z
              by (apply Z.mul_le_mono_nonneg_l; lia).
            lia.
          - destruct (Z_lt_le_dec r 9007199254740992) as [Hok | Hbad];
              [exact Hok | exfalso].
            assert (P * 9007199254740992 <= P * r)%Z
              by (apply Z.mul_le_mono_nonneg_l; lia).
            lia. }
        destruct (Number_of_Z_finite r Hnz Hr) as (m' & e' & Hr' & He' & Hm').
        rewrite (integral_value_whole _ _ _ _ (Z.abs r) Hr' He' Hm').
        f_equal. destruct (Z.ltb_spec r 0); cbn [cond_Zopp]; lia.
    + apply IZR_le in Hlow. apply IZR_lt in Hupp.
      push_IZR Hlow. push_IZR Hupp.
      assert (Hinv : (IZR P * powerRZ 2 e = 1)%R).
      { unfold P. rewrite <- pow2_IZR by lia. apply pow2_opp. }
      pose proof (pow2_pos e) as Ht.
      set (t := powerRZ 2 e) in *. set (p := IZR P) in *.
      set (w := IZR v) in *. set (z := IZR r) in *.
      assert (Hz : (z = z * (p * t))%R) by (rewrite Hinv; ring).
      split.
      * assert ((2 * (p * z)) * t <= (2 * w + p) * t)%R
          by (apply Rmult_le_compat_r; lra).
        nra.
      * assert ((2 * w + p) * t < (2 * (p * z) + 2 * p) * t)%R
          by (apply Rmult_lt_compat_r; lra).
        nra.
Qed.

(** The quotient of two whole Numbers, the smaller by the larger: a
    finite Number within [2^-49] of the exact quotient. *)
Lemma whole_division (i n : int) :
  (0 < Uint63.to_Z i < Uint63.to_Z n)%Z ->
  (Uint63.to_Z n < 2 ^ 32)%Z ->
  exists (M : positive) (E : Z),
    Prim2SF (of_uint63 i / of_uint63 n) = S754_finite false M E
    /\ (2 ^ 51 <= Zpos M)%Z
    /\ (-105 <= E <= -51)%Z
    /\ (- powerRZ 2 (-49)
        <= IZR (Zpos M) * powerRZ 2 E
           - IZR (Uint63.to_Z i) / IZR (Uint63.to_Z n)
        <= powerRZ 2 (-49))%R.
Proof.
  intros Hi Hn.
  change (2 ^ 32)%Z with 4294967296%Z in Hn.
  assert (H53 : (2 ^ 53 = 9007199254740992)%Z) by reflexivity.
  assert (H52 : (2 ^ 52 = 4503599627370496)%Z) by reflexivity.
  destruct (whole_Number_finite i ltac:(lia))
    as (ma & ea & Ha & Hda & Hea & Hma).
  destruct (whole_Number_finite n ltac:(lia))
    as (mb & eb & Hb & Hdb & Heb & Hmb).
  pose proof (digits2_bound ma) as Hma_up.
  pose proof (digits2_lower ma) as Hma_lo.
  pose proof (digits2_bound mb) as Hmb_up.
  pose proof (digits2_lower mb) as Hmb_lo.
  rewrite Hda in Hma_up, Hma_lo. rewrite Hdb in Hmb_up, Hmb_lo.
  change (53 - 1)%Z with 52%Z in Hma_lo, Hmb_lo.
  rewrite H53 in Hma_up, Hmb_up. rewrite H52 in Hma_lo, Hmb_lo.
  set (zi := Uint63.to_Z i) in *. set (zn := Uint63.to_Z n) in *.
  assert (Hexp : (ea <= eb)%Z).
  { destruct (Z_le_gt_dec ea eb) as [Hle | Hgt]; [exact Hle | exfalso].
    assert (Hsplit : (2 ^ (- eb) = 2 ^ (- ea) * 2 ^ (ea - eb))%Z).
    { rewrite <- Z.pow_add_r by lia. f_equal; lia. }
    assert (Hk : (2 ^ 1 <= 2 ^ (ea - eb))%Z)
      by (apply Z.pow_le_mono_r; lia).
    change (2 ^ 1)%Z with 2%Z in Hk.
    assert (Hpa : (0 < 2 ^ (- ea))%Z) by (apply Z.pow_pos_nonneg; lia).
    rewrite Hsplit in Hmb.
    set (Pa := (2 ^ (- ea))%Z) in *. set (K := (2 ^ (ea - eb))%Z) in *.
    assert (H1 : (zi * Pa < zn * Pa)%Z)
      by (apply Z.mul_lt_mono_pos_r; lia).
    assert (H2 : (zn * Pa * 2 <= zn * Pa * K)%Z)
      by (apply Z.mul_le_mono_nonneg_l; [apply Z.mul_nonneg_nonneg |]; lia).
    rewrite Z.mul_assoc in Hmb. lia. }
  rewrite div_spec, Ha, Hb. unfold SF64div, SFdiv. cbn [xorb].
  unfold SFdiv_core_binary. cbn [Zdigits2]. rewrite Hda, Hdb. cbv zeta.
  replace (Z.min (fexp prec emax (53 + ea - (53 + eb))) (ea - eb))
    with (ea - eb - 53)%Z
    by (unfold fexp, SpecFloat.emin, prec, emax; lia).
  replace (ea - eb - (ea - eb - 53))%Z with 53%Z by lia.
  cbv beta iota. rewrite Z.shiftl_mul_pow2 by lia. rewrite H53.
  set (e' := (ea - eb - 53)%Z).
  pose proof (Z.div_mod (Zpos ma * 9007199254740992) (Zpos mb) ltac:(lia))
    as Hdm.
  pose proof (Z.mod_pos_bound (Zpos ma * 9007199254740992) (Zpos mb)
                ltac:(lia)) as Hmod.
  destruct (Z.div_eucl (Zpos ma * 9007199254740992) (Zpos mb))
    as [q r] eqn:Hqr.
  assert (Hq : q = (Zpos ma * 9007199254740992 / Zpos mb)%Z)
    by (unfold Z.div; rewrite Hqr; reflexivity).
  rewrite <- Hq in Hdm.
  assert (Hq_lo : (2 ^ 52 <= q)%Z).
  { rewrite Hq. apply Z.div_le_lower_bound; lia. }
  assert (Hq_up : (q < 2 ^ 54)%Z).
  { rewrite Hq. apply Z.div_lt_upper_bound; [lia |].
    change (2 ^ 54)%Z with 18014398509481984%Z. lia. }
  assert (Hq_mul : (q * Zpos mb <= Zpos ma * 9007199254740992
                    < q * Zpos mb + Zpos mb)%Z) by lia.
  clear Hdm Hmod Hq Hqr.
  destruct q as [| pq | pq]; try lia.
  pose proof (digits2_at_least pq 52 Hq_lo ltac:(lia)) as Hd_lo.
  pose proof (digits2_at_most pq 54 Hq_up ltac:(lia)) as Hd_up.
  destruct (binary_round_aux_error pq e' (new_location (Zpos mb) r)
              ltac:(lia) ltac:(unfold e'; lia) ltac:(unfold e'; lia))
    as (M & E & Heq & HE & HM & Herr).
  exists M, E. split; [exact Heq |]. split; [exact HM |].
  split; [unfold e' in HE; lia |].
  set (d := Zpos (digits2_pos pq)) in *.
  assert (Hround : (powerRZ 2 (e' + d - 51) <= powerRZ 2 (-50))%R)
    by (apply pow2_le; unfold e'; lia).
  assert (Htrunc : (powerRZ 2 e' <= powerRZ 2 (-50))%R)
    by (apply pow2_le; unfold e'; lia).
  assert (Hsum : (powerRZ 2 (-49) = 2 * powerRZ 2 (-50))%R).
  { change (-49)%Z with (1 + -50)%Z. rewrite pow2_add.
    change (powerRZ 2 1) with (2 * 1)%R. ring. }
  assert (HA : (IZR zi = IZR (Zpos ma) * powerRZ 2 ea)%R).
  { rewrite Hma, mult_IZR, <- pow2_IZR by lia.
    rewrite Rmult_assoc, pow2_opp. ring. }
  assert (HB : (IZR zn = IZR (Zpos mb) * powerRZ 2 eb)%R).
  { rewrite Hmb, mult_IZR, <- pow2_IZR by lia.
    rewrite Rmult_assoc, pow2_opp. ring. }
  assert (Hta : (powerRZ 2 ea
                 = powerRZ 2 eb * (IZR 9007199254740992 * powerRZ 2 e'))%R).
  { change 9007199254740992%Z with (2 ^ 53)%Z.
    rewrite <- pow2_IZR, <- !pow2_add by lia. f_equal. unfold e'. lia. }
  destruct Hq_mul as [Hq1 Hq2]. apply IZR_le in Hq1. apply IZR_lt in Hq2.
  push_IZR Hq1. push_IZR Hq2.
  pose proof (pow2_pos eb) as Htb. pose proof (pow2_pos e') as Hw.
  assert (Hmb_pos : (0 < IZR (Zpos mb))%R) by (apply IZR_lt; lia).
  rewrite HA, HB, Hta.
  set (w := powerRZ 2 e') in *. set (tb := powerRZ 2 eb) in *.
  set (a := IZR (Zpos ma)) in *. set (b := IZR (Zpos mb)) in *.
  set (c := IZR 9007199254740992) in *. set (z := IZR (Zpos pq)) in *.
  set (X := (a * (tb * (c * w)) / (b * tb))%R).
  assert (HX : (X * b = a * c * w)%R) by (unfold X; field; lra).
  assert (Hlow : (z * w <= X)%R).
  { assert ((z * b) * w <= (a * c) * w)%R
      by (apply Rmult_le_compat_r; lra).
    assert ((z * w - X) * b <= 0)%R by nra.
    destruct (Rle_lt_dec (z * w) X) as [Hok | Hbad]; [exact Hok | exfalso].
    assert (0 < (z * w - X) * b)%R by (apply Rmult_lt_0_compat; lra).
    lra. }
  assert (Hupp : (X < z * w + w)%R).
  { assert ((a * c) * w < (z * b + b) * w)%R
      by (apply Rmult_lt_compat_r; lra).
    assert (0 < (z * w + w - X) * b)%R by nra.
    destruct (Rlt_le_dec X (z * w + w)) as [Hok | Hbad]; [exact Hok | exfalso].
    assert (0 <= (X - (z * w + w)) * b)%R by (apply Rmult_le_pos; lra).
    lra. }
  lra.
Qed.

(** The product with 360: a finite Number with a fraction, within
    [2^-40] of the exact [index * 360 / headCount]. *)
Lemma whole_hue_product (i n : int) :
  (0 < Uint63.to_Z i < Uint63.to_Z n)%Z ->
  (Uint63.to_Z n < 2 ^ 32)%Z ->
  exists (M : positive) (E : Z),
    Prim2SF (of_uint63 i / of_uint63 n * 360)%float = S754_finite false M E
    /\ (E < 0)%Z
    /\ (- powerRZ 2 (-40)
        <= IZR (Zpos M) * powerRZ 2 E
           - 360 * (IZR (Uint63.to_Z i) / IZR (Uint63.to_Z n))
        <= powerRZ 2 (-40))%R.
Proof.
  intros Hi Hn.
  destruct (whole_division i n Hi Hn) as (Mq & Eq & Hq & HMq & HEq & Hquot).
  destruct (finite_valid _ _ _ _ Hq) as (Hdq & _ & _). cbv zeta in Hdq.
  pose proof (digits2_bound Mq) as HMq_up.
  assert (Hpow : (2 ^ Zpos (digits2_pos Mq) <= 2 ^ 53)%Z)
    by (apply Z.pow_le_mono_r; lia).
  change (2 ^ 53)%Z with 9007199254740992%Z in Hpow.
  change (2 ^ 51)%Z with 2251799813685248%Z in HMq.
  rewrite mul_spec, Hq.
  change (Prim2SF 360) with (S754_finite false 6333186975989760 (-44)).
  unfold SF64mul, SFmul. cbn [xorb].
  set (p := (Mq * 6333186975989760)%positive).
  assert (Hp : Zpos p = (Zpos Mq * 6333186975989760)%Z) by reflexivity.
  assert (Hp_lo : (2 ^ 52 <= Zpos p)%Z).
  { change (2 ^ 52)%Z with 4503599627370496%Z. lia. }
  assert (Hp_up : (Zpos p < 2 ^ 106)%Z).
  { change (2 ^ 106)%Z with (9007199254740992 * 9007199254740992)%Z.
    rewrite Hp. apply Z.mul_lt_mono_nonneg; lia. }
  pose proof (digits2_at_least p 52 Hp_lo ltac:(lia)) as Hd_lo.
  pose proof (digits2_at_most p 106 Hp_up ltac:(lia)) as Hd_up.
  pose proof (digits2_lower p) as Hp_digits.
  destruct (binary_round_aux_error p (Eq + -44) loc_Exact
              ltac:(lia) ltac:(lia) ltac:(lia))
    as (M & E & Heq & HE & HM & Herr).
  set (d := Zpos (digits2_pos p)) in *.
  exists M, E. split; [exact Heq |].
  (* the exact quotient lies between 0 and 1 *)
  assert (HB : (0 < IZR (Uint63.to_Z n))%R) by (apply IZR_lt; lia).
  assert (HA : (0 < IZR (Uint63.to_Z i) < IZR (Uint63.to_Z n))%R)
    by (split; apply IZR_lt; lia).
  set (A := IZR (Uint63.to_Z i)) in *. set (B := IZR (Uint63.to_Z n)) in *.
  set (X := (A / B)%R) in *.
  assert (HX : (X * B = A)%R) by (unfold X; field; lra).
  assert (HX01 : (0 < X < 1)%R).
  { split.
    - unfold X. apply Rdiv_lt_0_compat; lra.
    - destruct (Rlt_le_dec X 1) as [Hok | Hbad]; [exact Hok | exfalso].
      assert (1 * B <= X * B)%R by (apply Rmult_le_compat_r; lra). lra. }
  (* the constants *)
  assert (H49 : (powerRZ 2 (-49) * 562949953421312 = 1)%R).
  { change 562949953421312%R with (IZR (2 ^ 49)).
    rewrite <- pow2_IZR by lia. apply (pow2_opp 49). }
  assert (H40 : (powerRZ 2 (-40) * 1099511627776 = 1)%R).
  { change 1099511627776%R with (IZR (2 ^ 40)).
    rewrite <- pow2_IZR by lia. apply (pow2_opp 40). }
  assert (H42 : (powerRZ 2 (-42) * 4398046511104 = 1)%R).
  { change 4398046511104%R with (IZR (2 ^ 42)).
    rewrite <- pow2_IZR by lia. apply (pow2_opp 42). }
  assert (H360 : (IZR 6333186975989760 * powerRZ 2 (-44) = 360)%R).
  { change 6333186975989760%Z with (360 * 2 ^ 44)%Z.
    rewrite mult_IZR, <- pow2_IZR by lia.
    assert (H44 : (powerRZ 2 (-44) * powerRZ 2 44 = 1)%R)
      by apply (pow2_opp 44).
    rewrite Rmult_assoc, (Rmult_comm (powerRZ 2 44)), H44. ring. }
  (* the product before rounding is 360 times the quotient *)
  assert (Hexact : (IZR (Zpos p) * powerRZ 2 (Eq + -44)
                    = 360 * (IZR (Zpos Mq) * powerRZ 2 Eq))%R).
  { rewrite Hp, mult_IZR, pow2_add, <- H360. ring. }
  rewrite Hexact in Herr.
  set (Q := (IZR (Zpos Mq) * powerRZ 2 Eq)%R) in *.
  (* its size fixes the last place *)
  assert (Hsize : (d + Eq - 45 < 9)%Z).
  { apply pow2_lt_inv.
    replace (d + Eq - 45)%Z with ((d - 1) + (Eq + -44))%Z by lia.
    rewrite pow2_add, (pow2_IZR (d - 1)) by lia.
    rewrite (pow2_IZR 9) by lia. change (2 ^ 9)%Z with 512%Z.
    apply IZR_le in Hp_digits.
    pose proof (pow2_pos (Eq + -44)) as Hs.
    assert (IZR (2 ^ (d - 1)) * powerRZ 2 (Eq + -44)
            <= IZR (Zpos p) * powerRZ 2 (Eq + -44))%R
      by (apply Rmult_le_compat_r; lra).
    lra. }
  assert (Hulp : (powerRZ 2 (Eq + -44 + d - 51) <= powerRZ 2 (-42))%R)
    by (apply pow2_le; lia).
  assert (Hnear : (- powerRZ 2 (-40)
                   <= IZR (Zpos M) * powerRZ 2 E - 360 * X
                   <= powerRZ 2 (-40))%R) by lra.
  split; [| exact Hnear].
  (* the rounded product is below 512, so it has a fraction *)
  assert (Hlt : (51 + E < 9)%Z).
  { apply pow2_lt_inv. rewrite pow2_add, (pow2_IZR 51), (pow2_IZR 9) by lia.
    change (2 ^ 9)%Z with 512%Z. apply IZR_le in HM.
    pose proof (pow2_pos E) as Hs.
    assert (IZR (2 ^ 51) * powerRZ 2 E <= IZR (Zpos M) * powerRZ 2 E)%R
      by (apply Rmult_le_compat_r; lra).
    lra. }
  lia.
Qed.

(** The hue of a head after the first, on machine integers: the whole
    degree [r] with [r <= y + 1/2 < r + 1] for the double
    [y = (i / n) * 360], and within half a degree of the exact
    [i * 360 / n]. *)
Lemma hue_of_whole_Numbers (i n : int) :
  (0 < Uint63.to_Z i < Uint63.to_Z n)%Z ->
  (Uint63.to_Z n < 2 ^ 32)%Z ->
  exists r : Z,
    attentionHeadHue (of_uint63 i) (of_uint63 n) = JS.Number_of_Z r
    /\ (IZR r <= JS.Number_value (of_uint63 i / of_uint63 n * 360)%float + / 2
        < IZR r + 1)%R
    /\ (720 * Uint63.to_Z i - Uint63.to_Z n
        <= 2 * (Uint63.to_Z n * r)
        <= 720 * Uint63.to_Z i + Uint63.to_Z n)%Z.
Proof.
  intros Hi Hn.
  destruct (whole_hue_product i n Hi Hn) as (M & E & Hy & HE & Hnear).
  destruct (Math_round_half_up _ M E Hy HE) as (r & Hr & Hround).
  exists r. split; [exact Hr |]. split; [exact Hround |].
  rewrite (Number_value_finite _ _ _ _ Hy) in Hround. cbn [cond_Zopp] in Hround.
  set (Y := (IZR (Zpos M) * powerRZ 2 E)%R) in *.
  change (2 ^ 32)%Z with 4294967296%Z in Hn.
  assert (HB : (0 < IZR (Uint63.to_Z n) <= 4294967296)%R).
  { split; [apply IZR_lt | apply IZR_le]; lia. }
  set (zi := Uint63.to_Z i) in *. set (zn := Uint63.to_Z n) in *.
  set (A := IZR zi) in *. set (B := IZR zn) in *.
  set (X := (A / B)%R) in *.
  assert (HX : (X * B = A)%R) by (unfold X; field; lra).
  assert (H40 : (powerRZ 2 (-40) * 1099511627776 = 1)%R).
  { change 1099511627776%R with (IZR (2 ^ 40)).
    rewrite <- pow2_IZR by lia. apply (pow2_opp 40). }
  set (eps := powerRZ 2 (-40)) in *.
  assert (Heps : (0 < eps)%R) by apply pow2_pos.
  assert (HBeps : (B * eps <= 4294967296 * eps)%R)
    by (apply Rmult_le_compat_r; lra).
  assert (Hup : (2 * B * IZR r <= 2 * B * (360 * X + eps + / 2))%R)
    by (apply Rmult_le_compat_l; lra).
  assert (Hlo : (2 * B * (360 * X - eps + / 2) <= 2 * B * (IZR r + 1))%R)
    by (apply Rmult_le_compat_l; lra).
  split.
  - assert (Hgoal : (720 * zi + zn - 1 < 2 * (zn * r) + 2 * zn)%Z); [| lia].
    apply lt_IZR. push_IZR_goal. fold A B. nra.
  - assert (Hgoal : (2 * (zn * r) < 720 * zi + zn + 1)%Z); [| lia].
    apply lt_IZR. push_IZR_goal. fold A B. nra.
Qed.

(** *** The hue of head 0 *)

Lemma hue_of_head_zero (n : JS.Number) :
  (0 <? n)%float = true -> attentionHeadHue 0%float n = 0%float.
Proof.
  intros Hn. unfold attentionHeadHue. rewrite (zero_div_positive n Hn).
  reflexivity.
Qed.

(** ** The head colour *)

Lemma attentionHeadColor_unfold
  (idx numberOfHeads : JS.Number) (alpha : option string) :
  attentionHeadColor idx numberOfHeads alpha =
  "hsla(" ++ JS.Number_toString (attentionHeadHue idx numberOfHeads)
    ++ ", 70%, 50%,  " ++ with_default alpha "100%" ++ ")".
Proof. reflexivity. Qed.

(** C10. The head colour is defined for all Numbers, with no check of the
    range: the result is always [hsla(] ... [)] around the printed hue;
    with zero heads the hue is [NaN] for index 0 and [Infinity] for a
    positive index, and that is what the string holds. *)
Theorem attentionHeadColor_total :
  forall (idx numberOfHeads : JS.Number) (alpha : option string),
    (exists hue : string,
        hue = JS.Number_toString (attentionHeadHue idx numberOfHeads) /\
        attentionHeadColor idx numberOfHeads alpha =
          "hsla(" ++ hue ++ ", 70%, 50%,  "
            ++ with_default alpha "100%" ++ ")")
    /\ ((idx =? 0)%float = true ->
        attentionHeadHue idx 0%float = nan /\
        attentionHeadColor idx 0%float alpha =
          "hsla(NaN, 70%, 50%,  " ++ with_default alpha "100%" ++ ")")
    /\ ((0 <? idx)%float = true ->
        attentionHeadHue idx 0%float = infinity /\
        attentionHeadColor idx 0%float alpha =
          "hsla(Infinity, 70%, 50%,  " ++ with_default alpha "100%" ++ ")").
Proof.
  intros idx numberOfHeads alpha. split; [| split].
  - eexists. split; [reflexivity |]. apply attentionHeadColor_unfold.
  - intros Hz.
    assert (Hhue : attentionHeadHue idx 0%float = nan).
    { unfold attentionHeadHue. rewrite (zero_div_zero idx Hz). reflexivity. }
    split; [exact Hhue |].
    rewrite attentionHeadColor_unfold, Hhue. reflexivity.
  - intros Hp.
    assert (Hhue : attentionHeadHue idx 0%float = infinity).
    { unfold attentionHeadHue. rewrite (positive_div_zero idx Hp).
      reflexivity. }
    split; [exact Hhue |].
    rewrite attentionHeadColor_unfold, Hhue. reflexivity.
Qed.

Lemma attentionHeadColor_total_witness :
  attentionHeadColor 0%float 0%float None = "hsla(NaN, 70%, 50%,  100%)"
  /\ attentionHeadColor 3%float 0%float None
     = "hsla(Infinity, 70%, 50%,  100%)".
Proof.
  split.
  - exact (proj2 (proj1 (proj2
             (attentionHeadColor_total 0%float 0%float None)) eq_refl)).
  - exact (proj2 (proj2 (proj2
             (attentionHeadColor_total 3%float 0%float None)) eq_refl)).
Defined.

(** *** Hues of whole head counts *)

Lemma hue_check_sound (n i : int) :
  hue_check n i = true ->
  (0 < Uint63.to_Z n <= 719)%Z ->
  (Uint63.to_Z i < Uint63.to_Z n)%Z ->
  exists h : Z,
    attentionHeadHue (of_uint63 i) (of_uint63 n) = JS.Number_of_Z h
    /\ (0 <= h <= 359)%Z
    /\ (Z.abs (2 * Uint63.to_Z n * h - 720 * Uint63.to_Z i)
        <= Uint63.to_Z n)%Z.
Proof.
  unfold hue_check. rewrite Math_round_fast_correct.
  fold (attentionHeadHue (of_uint63 i) (of_uint63 n)).
  set (hue := attentionHeadHue (of_uint63 i) (of_uint63 n)).
  set (h := if PrimFloat.Leibniz.eqb hue _ then _ else _).
  rewrite !andb_true_iff. intros [[[Heq Hhi] Hlow] Hupp] Hn Hi.
  apply Leibniz.eqb_spec in Heq.
  apply Uint63.leb_spec in Hhi, Hlow, Hupp.
  change (Uint63.to_Z 359) with 359%Z in Hhi.
  pose proof (Uint63.to_Z_bounded h) as Hh.
  pose proof (Uint63.to_Z_bounded i) as Hib.
  assert (Hnh : (0 <= Uint63.to_Z n * Uint63.to_Z h <= 719 * 359)%Z).
  { split; [apply Z.mul_nonneg_nonneg; lia |].
    apply Z.mul_le_mono_nonneg; lia. }
  assert (Hwb : wB = 9223372036854775808%Z) by reflexivity.
  assert (H2n : Uint63.to_Z (2 * n) = (2 * Uint63.to_Z n)%Z).
  { rewrite Uint63.mul_spec. change (Uint63.to_Z 2) with 2%Z.
    apply Z.mod_small. lia. }
  assert (H2nh : Uint63.to_Z (2 * n * h)
                 = (2 * (Uint63.to_Z n * Uint63.to_Z h))%Z).
  { rewrite Uint63.mul_spec, H2n, <- Z.mul_assoc. apply Z.mod_small. lia. }
  assert (H720 : Uint63.to_Z (720 * i) = (720 * Uint63.to_Z i)%Z).
  { rewrite Uint63.mul_spec. change (Uint63.to_Z 720) with 720%Z.
    apply Z.mod_small. lia. }
  rewrite Uint63.add_spec, H720, H2nh, Z.mod_small in Hlow by lia.
  rewrite Uint63.add_spec, H720, H2nh, Z.mod_small in Hupp by lia.
  exists (Uint63.to_Z h). split; [| split].
  - rewrite Number_of_Z_of_uint63. exact Heq.
  - lia.
  - rewrite <- Z.mul_assoc. apply Z.abs_le. lia.
Qed.

Lemma hue_check_row_sound (count : nat) :
  forall n i : int,
    (Uint63.to_Z i + Z.of_nat count < wB)%Z ->
    hue_check_row count n i = true ->
    forall j : Z,
      (Uint63.to_Z i <= j < Uint63.to_Z i + Z.of_nat count)%Z ->
      hue_check n (Uint63.of_Z j) = true.
Proof.
  induction count as [| count IH]; intros n i Hroom Hrow j Hj; [lia |].
  cbn [hue_check_row] in Hrow. apply andb_true_iff in Hrow.
  destruct Hrow as [Hhere Hrest].
  destruct (Z.eq_dec j (Uint63.to_Z i)) as [-> | Hne].
  - rewrite Uint63.of_to_Z. exact Hhere.
  - assert (Hnext : Uint63.to_Z (i + 1) = (Uint63.to_Z i + 1)%Z).
    { rewrite Uint63.add_spec. change (Uint63.to_Z 1) with 1%Z.
      pose proof (Uint63.to_Z_bounded i). apply Z.mod_small. lia. }
    apply (IH n (i + 1)%uint63); [lia | exact Hrest | lia].
Qed.

Lemma hue_check_from_sound (count : nat) :
  forall (k : nat) (n : int),
    Uint63.to_Z n = Z.of_nat k ->
    (Z.of_nat k + Z.of_nat count < wB)%Z ->
    hue_check_from count k n = true ->
    forall m : nat,
      k <= m < k + count ->
      hue_check_row m (Uint63.of_Z (Z.of_nat m)) 0%uint63 = true.
Proof.
  induction count as [| count IH]; intros k n Hn Hroom Hall m Hm; [lia |].
  cbn [hue_check_from] in Hall. apply andb_true_iff in Hall.
  destruct Hall as [Hhere Hrest].
  destruct (Nat.eq_dec m k) as [-> | Hne].
  - rewrite <- Hn, Uint63.of_to_Z. exact Hhere.
  - assert (Hnext : Uint63.to_Z (n + 1) = Z.of_nat (S k)).
    { rewrite Uint63.add_spec, Hn. change (Uint63.to_Z 1) with 1%Z.
      rewrite Z.mod_small; lia. }
    apply (IH (S k) (n + 1)%uint63 Hnext); [lia | exact Hrest | lia].
Qed.

Lemma hue_check_upto_sound (bound headCount index : nat) :
  (Z.of_nat bound + 1 < wB)%Z ->
  hue_check_upto bound = true ->
  0 < headCount <= bound -> index < headCount ->
  hue_check (Uint63.of_Z (Z.of_nat headCount))
    (Uint63.of_Z (Z.of_nat index)) = true.
Proof.
  intros Hroom Hall Hn Hi.
  assert (Hrow : hue_check_row headCount
                   (Uint63.of_Z (Z.of_nat headCount)) 0%uint63 = true).
  { apply (hue_check_from_sound bound 1 1%uint63); [reflexivity | lia | |lia].
    exact Hall. }
  apply (hue_check_row_sound headCount _ 0%uint63);
    [| exact Hrow |]; change (Uint63.to_Z 0) with 0%Z; lia.
Qed.

Lemma hues_checked : hue_check_upto 719 = true.
Proof. vm_cast_no_check (@eq_refl bool true). Qed.

Lemma degrees_print_check_sound (bound h : nat) :
  degrees_print_check bound = true ->
  h < bound ->
  JS.Number_toString (JS.Number_of_nat h) = JS.digits_of_nat h
  /\ JS.integral_value (JS.Number_of_nat h) = Some (Z.of_nat h).
Proof.
  unfold degrees_print_check. intros Hall Hh.
  rewrite forallb_forall in Hall.
  assert (Hin : In h (seq 0 bound)) by (apply in_seq; lia).
  apply Hall in Hin. apply andb_true_iff in Hin. destruct Hin as [Hs Hz].
  split; [now apply String.eqb_eq |].
  destruct (JS.integral_value (JS.Number_of_nat h)) as [z |];
    [| discriminate].
  apply Z.eqb_eq in Hz. now subst.
Qed.

Lemma degrees_printed : degrees_print_check 361 = true.
Proof. vm_cast_no_check (@eq_refl bool true). Qed.

(** Up to 360 a whole Number prints as its decimal digits and stands for
    its integer. *)
Lemma Number_of_degrees (h : nat) :
  h < 361 ->
  JS.Number_toString (JS.Number_of_nat h) = JS.digits_of_nat h
  /\ JS.integral_value (JS.Number_of_nat h) = Some (Z.of_nat h).
Proof.
  intros Hh. exact (degrees_print_check_sound 361 h degrees_printed Hh).
Qed.

Lemma hue_of_whole_heads (headCount index : nat) :
  0 < headCount <= 719 -> index < headCount ->
  attentionHeadHue (JS.Number_of_nat index) (JS.Number_of_nat headCount)
    = JS.Number_of_Z (hue_degrees index headCount)
  /\ (0 <= hue_degrees index headCount <= 359)%Z
  /\ (Z.abs (2 * Z.of_nat headCount * hue_degrees index headCount
             - 720 * Z.of_nat index) <= Z.of_nat headCount)%Z.
Proof.
  intros Hn Hi.
  assert (Hwb : wB = 9223372036854775808%Z) by reflexivity.
  assert (Hcheck := hue_check_upto_sound 719 headCount index
                      ltac:(lia) hues_checked Hn Hi).
  apply hue_check_sound in Hcheck; rewrite ?to_Z_of_nat by lia; try lia.
  rewrite !to_Z_of_nat in Hcheck by lia.
  rewrite <- !Number_of_nat_of_uint63 in Hcheck by lia.
  destruct Hcheck as (h & Hhue & Hrange & Hnear).
  assert (Hdeg : hue_degrees index headCount = h).
  { unfold hue_degrees. rewrite Hhue, <- (Z2Nat.id h) by lia.
    change (JS.Number_of_Z (Z.of_nat (Z.to_nat h)))
      with (JS.Number_of_nat (Z.to_nat h)).
    rewrite (proj2 (Number_of_degrees (Z.to_nat h) ltac:(lia))).
    reflexivity. }
  rewrite Hdeg. repeat split; try assumption; lia.
Qed.

Lemma near_hues_ordered (n i j hi hj : Z) :
  (0 < n)%Z -> (i <= j)%Z ->
  (Z.abs (2 * n * hi - 720 * i) <= n)%Z ->
  (Z.abs (2 * n * hj - 720 * j) <= n)%Z ->
  (i = j -> hi = hj) ->
  (hi <= hj)%Z.
Proof.
  intros Hn Hij Hi Hj Hsame.
  apply Z.abs_le in Hi, Hj.
  destruct (Z.eq_dec i j) as [Heq | Hne].
  - rewrite (Hsame Heq). apply Z.le_refl.
  - destruct (Z_lt_le_dec hj hi) as [Hlt | Hle]; [exfalso | exact Hle].
    assert (Hmul : (n * (hj + 1) <= n * hi)%Z).
    { apply Z.mul_le_mono_nonneg_l; [apply Z.lt_le_incl; exact Hn |].
      apply Z.le_succ_l. exact Hlt. }
    rewrite Z.mul_add_distr_l, Z.mul_1_r in Hmul.
    rewrite <- !Z.mul_assoc in Hi, Hj.
    set (a := (n * hi)%Z) in *. set (b := (n * hj)%Z) in *.
    lia.
Qed.

(** *** The hue of every head

    For an index and a head count that are positions of an array, the
    hue is [index * 360 / headCount] rounded to a nearest whole degree:
    the two roundings of the division and of the product move the double
    [(index / headCount) * 360] by less than [2^-40], too little to
    change the result of [Math.round] except at an exact tie. *)
Lemma hue_to_nearest_degree (headCount index : nat) :
  0 < headCount -> index < headCount ->
  (Z.of_nat headCount < 2 ^ 32)%Z ->
  attentionHeadHue (JS.Number_of_nat index) (JS.Number_of_nat headCount)
    = JS.Number_of_Z (hue_degrees index headCount)
  /\ (0 <= hue_degrees index headCount <= 360)%Z
  /\ (Z.abs (2 * Z.of_nat headCount * hue_degrees index headCount
             - 720 * Z.of_nat index) <= Z.of_nat headCount)%Z
  /\ (IZR (hue_degrees index headCount)
      <= JS.Number_value
           (JS.Number_of_nat index / JS.Number_of_nat headCount * 360)%float
         + / 2
      < IZR (hue_degrees index headCount) + 1)%R.
Proof.
  intros Hn Hi Harray.
  assert (H32 : (2 ^ 32 = 4294967296)%Z) by reflexivity.
  assert (Hwb : wB = 9223372036854775808%Z) by reflexivity.
  assert (Hfound : exists r : Z,
             attentionHeadHue (JS.Number_of_nat index)
               (JS.Number_of_nat headCount) = JS.Number_of_Z r
             /\ (IZR r
                 <= JS.Number_value
                      (JS.Number_of_nat index / JS.Number_of_nat headCount
                       * 360)%float + / 2
                 < IZR r + 1)%R
             /\ (720 * Z.of_nat index - Z.of_nat headCount
                 <= 2 * (Z.of_nat headCount * r)
                 <= 720 * Z.of_nat index + Z.of_nat headCount)%Z).
  { destruct index as [| k].
    - assert (Hpos := Number_of_nat_positive headCount Hn ltac:(lia)).
      change (JS.Number_of_nat 0) with 0%float.
      exists 0%Z. split; [exact (hue_of_head_zero _ Hpos) |].
      rewrite (zero_div_positive _ Hpos).
      change (JS.Number_value (0 * 360)%float) with 0%R.
      split; [lra | lia].
    - rewrite !Number_of_nat_of_uint63 by lia.
      destruct (hue_of_whole_Numbers (Uint63.of_Z (Z.of_nat (S k)))
                  (Uint63.of_Z (Z.of_nat headCount)))
        as (r & Hr & Hround & Hnear);
        rewrite ?to_Z_of_nat by lia; try lia.
      rewrite !to_Z_of_nat in Hnear by lia.
      exists r. split; [exact Hr |]. split; [exact Hround | exact Hnear]. }
  destruct Hfound as (r & Hr & Hround & Hnear).
  assert (Hrange : (0 <= r <= 360)%Z).
  { set (n := Z.of_nat headCount) in *. set (i := Z.of_nat index) in *.
    assert (Hin : (0 <= i < n)%Z) by (unfold i, n; lia).
    split.
    - destruct (Z_le_gt_dec 0 r) as [Hok | Hbad]; [exact Hok | exfalso].
      assert (n * r <= n * (-1))%Z
        by (apply Z.mul_le_mono_nonneg_l; lia).
      lia.
    - destruct (Z_le_gt_dec r 360) as [Hok | Hbad]; [exact Hok | exfalso].
      assert (n * 361 <= n * r)%Z
        by (apply Z.mul_le_mono_nonneg_l; lia).
      lia. }
  assert (Hdeg : hue_degrees index headCount = r).
  { unfold hue_degrees. rewrite Hr, <- (Z2Nat.id r) by lia.
    change (JS.Number_of_Z (Z.of_nat (Z.to_nat r)))
      with (JS.Number_of_nat (Z.to_nat r)).
    rewrite (proj2 (Number_of_degrees (Z.to_nat r) ltac:(lia))).
    reflexivity. }
  rewrite Hdeg. split; [exact Hr |]. split; [exact Hrange |].
  split; [| exact Hround].
  rewrite <- Z.mul_assoc. apply Z.abs_le. lia.
Qed.

Lemma colour_of_degrees (headCount index : nat) (alpha : option string) :
  0 < headCount -> index < headCount ->
  (Z.of_nat headCount < 2 ^ 32)%Z ->
  attentionHeadColor (JS.Number_of_nat index) (JS.Number_of_nat headCount)
    alpha
  = "hsla(" ++ JS.digits_of_Z (hue_degrees index headCount)
      ++ ", 70%, 50%,  " ++ with_default alpha "100%" ++ ")".
Proof.
  intros Hn Hi Harray.
  destruct (hue_to_nearest_degree headCount index Hn Hi Harray)
    as (Hhue & Hrange & _).
  rewrite attentionHeadColor_unfold, Hhue.
  set (h := hue_degrees index headCount) in *.
  rewrite <- (Z2Nat.id h) by lia.
  change (JS.Number_of_Z (Z.of_nat (Z.to_nat h)))
    with (JS.Number_of_nat (Z.to_nat h)).
  rewrite (proj1 (Number_of_degrees (Z.to_nat h) ltac:(lia))).
  reflexivity.
Qed.

(** The last head: below 360 degrees up to 719 heads, at 360 degrees
    from 720 heads on. *)
Lemma hue_of_last_head (headCount : nat) :
  0 < headCount -> (Z.of_nat headCount < 2 ^ 32)%Z ->
  (headCount <= 719 -> (hue_degrees (headCount - 1) headCount < 360)%Z)
  /\ (720 <= headCount -> hue_degrees (headCount - 1) headCount = 360%Z).
Proof.
  intros Hn Harray.
  destruct (hue_to_nearest_degree headCount (headCount - 1) Hn ltac:(lia)
              Harray) as (_ & Hrange & Hnear & _).
  apply Z.abs_le in Hnear. rewrite <- Z.mul_assoc in Hnear.
  set (h := hue_degrees (headCount - 1) headCount) in *.
  set (n := Z.of_nat headCount) in *.
  assert (Hlast : Z.of_nat (headCount - 1) = (n - 1)%Z) by (unfold n; lia).
  rewrite Hlast in Hnear.
  assert (Hpos : (0 < n)%Z) by (unfold n; lia).
  split.
  - intros Hsmall.
    destruct (Z_lt_le_dec h 360) as [Hok | Hbad]; [exact Hok | exfalso].
    assert (n * 360 <= n * h)%Z by (apply Z.mul_le_mono_nonneg_l; lia).
    assert (n <= 719)%Z by (unfold n; lia).
    lia.
  - intros Hlarge.
    destruct (Nat.eq_dec headCount 720) as [-> | Hne];
      [vm_compute; reflexivity |].
    destruct (Z_lt_le_dec h 360) as [Hbad | Hok]; [exfalso | lia].
    assert (n * h <= n * 359)%Z by (apply Z.mul_le_mono_nonneg_l; lia).
    assert (721 <= n)%Z by (unfold n; lia).
    lia.
Qed.

(** C2. For a head count [headCount > 0] and an index with
    [0 <= index < headCount], positions of the attention array (whose
    length is below [2^32]), the head colour is the string
    [hsla(h, 70%, 50%,  alpha)], with [alpha] defaulting to [100%] and
    [h] written in decimal digits, where [h] is
    [(index / headCount) * 360] rounded: for the double
    [y = (index / headCount) * 360] that the code computes, [h] is the
    integer with [h <= y + 1/2 < h + 1], and it is a whole degree from 0
    to 360 nearest to the exact [index * 360 / headCount].  Equal
    arguments give equal strings; head 0 has hue 0, and so it has for
    every positive Number of heads.  For Numbers that are not array
    positions the string is built in the same way, and its hue is the
    integer [k] with [k <= y + 1/2 < k + 1] whenever [y] is finite. *)
Theorem attentionHeadColor_hsla :
  forall (index headCount : nat) (alpha : option string),
    0 < headCount -> index < headCount ->
    (Z.of_nat headCount < 2 ^ 32)%Z ->
    exists h : Z,
      attentionHeadColor (JS.Number_of_nat index)
        (JS.Number_of_nat headCount) alpha
      = "hsla(" ++ JS.digits_of_Z h ++ ", 70%, 50%,  "
          ++ with_default alpha "100%" ++ ")"
      /\ (0 <= h <= 360)%Z
      /\ (IZR h
          <= JS.Number_value
               (JS.Number_of_nat index / JS.Number_of_nat headCount
                * 360)%float + / 2
          < IZR h + 1)%R
      /\ (Z.abs (2 * Z.of_nat headCount * h - 720 * Z.of_nat index)
          <= Z.of_nat headCount)%Z
      /\ (index = 0 -> h = 0%Z)
      /\ (forall (index' headCount' : JS.Number) (alpha' : option string),
            index' = JS.Number_of_nat index ->
            headCount' = JS.Number_of_nat headCount ->
            alpha' = alpha ->
            attentionHeadColor index' headCount' alpha'
            = attentionHeadColor (JS.Number_of_nat index)
                (JS.Number_of_nat headCount) alpha)
      /\ (forall numberOfHeads : JS.Number,
            (0 <? numberOfHeads)%float = true ->
            attentionHeadColor 0%float numberOfHeads alpha
            = "hsla(0, 70%, 50%,  " ++ with_default alpha "100%" ++ ")")
      /\ (forall (idx numberOfHeads : JS.Number)
                 (s : bool) (m : positive) (e : Z),
            Prim2SF (idx / numberOfHeads * 360)%float = S754_finite s m e ->
            exists k : Z,
              attentionHeadColor idx numberOfHeads alpha
              = "hsla("
                  ++ JS.Number_toString (attentionHeadHue idx numberOfHeads)
                  ++ ", 70%, 50%,  " ++ with_default alpha "100%" ++ ")"
              /\ JS.integral_value (attentionHeadHue idx numberOfHeads)
                 = Some k
              /\ (IZR k
                  <= JS.Number_value (idx / numberOfHeads * 360)%float + / 2
                  < IZR k + 1)%R).
Proof.
  intros index headCount alpha Hn Hi Harray.
  destruct (hue_to_nearest_degree headCount index Hn Hi Harray)
    as (_ & Hrange & Hnear & Hround).
  exists (hue_degrees index headCount).
  split; [now apply colour_of_degrees |]. split; [exact Hrange |].
  split; [exact Hround |]. split; [exact Hnear |].
  split; [| split; [| split]].
  - intros ->. apply Z.abs_le in Hnear.
    change (720 * Z.of_nat 0)%Z with 0%Z in Hnear.
    rewrite Z.sub_0_r, <- Z.mul_assoc in Hnear.
    set (h := hue_degrees 0 headCount) in *.
    destruct (Z.eq_dec h 0) as [Hz | Hnz]; [exact Hz | exfalso].
    assert (Z.of_nat headCount * 1 <= Z.of_nat headCount * h)%Z
      by (apply Z.mul_le_mono_nonneg_l; lia).
    lia.
  - intros index' headCount' alpha' -> -> ->. reflexivity.
  - intros numberOfHeads Hpos.
    rewrite attentionHeadColor_unfold, (hue_of_head_zero _ Hpos).
    reflexivity.
  - intros idx numberOfHeads s m e Hy.
    destruct (Math_round_nearest _ s m e Hy) as (k & Hk & Hhalf).
    exists k. split; [apply attentionHeadColor_unfold |].
    split; [exact Hk | exact Hhalf].
Qed.

Lemma attentionHeadColor_hsla_witness :
  attentionHeadColor (JS.Number_of_nat 1) (JS.Number_of_nat 7) None
    = "hsla(51, 70%, 50%,  100%)"
  /\ attentionHeadColor (JS.Number_of_nat 2) (JS.Number_of_nat 7)
       (Some "60%")
     = "hsla(103, 70%, 50%,  60%)".
Proof.
  split.
  - destruct (attentionHeadColor_hsla 1 7 None ltac:(lia) ltac:(lia)
                eq_refl) as (h & Hcolour & _ & _ & Hnear & _).
    apply Z.abs_le in Hnear.
    assert (Hh : h = 51%Z) by lia.
    rewrite Hh in Hcolour. exact Hcolour.
  - destruct (attentionHeadColor_hsla 2 7 (Some "60%") ltac:(lia)
                ltac:(lia) eq_refl) as (h & Hcolour & _ & _ & Hnear & _).
    apply Z.abs_le in Hnear.
    assert (Hh : h = 103%Z) by lia.
    rewrite Hh in Hcolour. exact Hcolour.
Defined.

(** C8, as the code has it.  For every head count above 0 (the length
    of the attention array, so below [2^32]) the hue of every head is a
    whole degree within half a degree of [index * 360 / headCount], so
    the hues go round the circle in even steps and in index order, and
    head 0 is at hue 0.  The last head is below 360 exactly up to 719
    heads: from 720 heads on its hue is 360.  The string holds the
    degree in decimal digits.  Head 0 is at hue 0 for every positive
    Number of heads. *)
Theorem hues_evenly_spaced :
  forall headCount index : nat,
    0 < headCount ->
    index < headCount ->
    (Z.of_nat headCount < 2 ^ 32)%Z ->
    attentionHeadHue (JS.Number_of_nat index) (JS.Number_of_nat headCount)
      = JS.Number_of_Z (hue_degrees index headCount)
    /\ (Z.abs (2 * Z.of_nat headCount * hue_degrees index headCount
               - 720 * Z.of_nat index) <= Z.of_nat headCount)%Z
    /\ (forall index' : nat,
          index <= index' < headCount ->
          (hue_degrees index headCount <= hue_degrees index' headCount)%Z)
    /\ hue_degrees 0 headCount = 0%Z
    /\ ((hue_degrees (headCount - 1) headCount < 360)%Z
        <-> headCount <= 719)
    /\ (720 <= headCount -> hue_degrees (headCount - 1) headCount = 360%Z)
    /\ attentionHeadColor (JS.Number_of_nat index)
         (JS.Number_of_nat headCount) None
       = "hsla(" ++ JS.digits_of_Z (hue_degrees index headCount)
           ++ ", 70%, 50%,  100%)"
    /\ (forall numberOfHeads : JS.Number,
          (0 <? numberOfHeads)%float = true ->
          attentionHeadHue 0%float numberOfHeads = 0%float).
Proof.
  intros headCount index Hn Hi Harray.
  assert (Hall := fun i (Hlt : i < headCount) =>
                    hue_to_nearest_degree headCount i Hn Hlt Harray).
  destruct (Hall index Hi) as (Hhue & Hrange & Hnear & _).
  destruct (hue_of_last_head headCount Hn Harray) as [Hbelow Hfull].
  split; [exact Hhue |]. split; [exact Hnear |].
  split; [| split; [| split; [| split; [exact Hfull | split]]]].
  - intros index' Hle.
    destruct (Hall index' (proj2 Hle)) as (_ & _ & Hnear' & _).
    apply (near_hues_ordered (Z.of_nat headCount) (Z.of_nat index)
             (Z.of_nat index')); try assumption; try lia.
    intros Heq. apply Nat2Z.inj in Heq. now subst.
  - destruct (Hall 0 ltac:(lia)) as (_ & Hr0 & Hn0 & _).
    apply Z.abs_le in Hn0. change (720 * Z.of_nat 0)%Z with 0%Z in Hn0.
    rewrite Z.sub_0_r, <- Z.mul_assoc in Hn0.
    set (h := hue_degrees 0 headCount) in *.
    assert (Hh : (h <= 0)%Z \/ (1 <= h)%Z) by lia.
    destruct Hh as [Hh | Hh]; [lia | exfalso].
    assert (Z.of_nat headCount * 1 <= Z.of_nat headCount * h)%Z
      by (apply Z.mul_le_mono_nonneg_l; lia).
    lia.
  - split; [| exact Hbelow].
    intros Hlt. destruct (Nat.le_gt_cases headCount 719) as [Hok | Hbig];
      [exact Hok | exfalso].
    rewrite (Hfull ltac:(lia)) in Hlt. lia.
  - exact (colour_of_degrees headCount index None Hn Hi Harray).
  - exact hue_of_head_zero.
Qed.

Lemma hues_evenly_spaced_witness :
  attentionHeadHue (JS.Number_of_nat 1) (JS.Number_of_nat 2)
    = JS.Number_of_Z (hue_degrees 1 2)
  /\ (hue_degrees 1 2 < 360)%Z
  /\ attentionHeadColor (JS.Number_of_nat 1) (JS.Number_of_nat 2) None
     = "hsla(180, 70%, 50%,  100%)".
Proof.
  assert (Hn : 0 < 2) by lia.
  assert (Hi : 1 < 2) by lia.
  destruct (hues_evenly_spaced 2 1 Hn Hi eq_refl)
    as (Hhue & _ & _ & _ & Hlast & _ & Hcol & _).
  split; [exact Hhue |]. split; [apply Hlast; lia | exact Hcol].
Defined.

(** With 720 heads the last head is at hue 360: 719/720 of the circle is
    359.5 degrees, which [Math.round] takes up to 360. *)
Lemma last_head_hue_reaches_360 :
  0 < 720
  /\ attentionHeadHue (JS.Number_of_nat (720 - 1)) (JS.Number_of_nat 720)
     = 360%float
  /\ ~ (hue_degrees (720 - 1) 720 < 360)%Z
  /\ attentionHeadColor (JS.Number_of_nat (720 - 1)) (JS.Number_of_nat 720)
       None
     = "hsla(360, 70%, 50%,  100%)".
Proof.
  split; [lia |]. split; [vm_compute; reflexivity |].
  split; [| vm_compute; reflexivity].
  assert (Hdeg : hue_degrees (720 - 1) 720 = 360%Z) by (vm_compute; reflexivity).
  rewrite Hdeg. lia.
Qed.

(** The hue follows double arithmetic: 7/80 of the circle is 31.5
    degrees, but [(7 / 80) * 360] is a double just below it, so the hue
    is 31; still within half a degree. *)
Example hue_follows_double_arithmetic :
  hue_degrees 7 80 = 31%Z
  /\ ((7 / 80) * 360 <? 31.5)%float = true
  /\ hue_degrees 1 16 = 23%Z.
Proof. vm_compute. repeat split. Qed.

(** The index may lie outside the heads: nothing is checked. *)
Example attentionHeadColor_out_of_range :
  attentionHeadColor 5%float 2%float None = "hsla(900, 70%, 50%,  100%)"
  /\ attentionHeadColor (-1)%float 7%float None
     = "hsla(-51, 70%, 50%,  100%)"
  /\ attentionHeadColor (-3)%float 0%float None
     = "hsla(-Infinity, 70%, 50%,  100%)".
Proof. vm_compute. repeat split. Qed.

(** ** The hover-lock state *)

(** C3. A click on an index that is not the locked one focuses and locks
    it; a click on the locked index unlocks, and the focus falls back to
    the current hover if there is one, else to the default. *)
Theorem onClick_toggles_lock :
  forall (st : HoverLock.State) (index : nat),
    (HoverLock.lock st = false \/ HoverLock.focus st <> Some index ->
     HoverLock.focus (HoverLock.onClick index st) = Some index
     /\ HoverLock.lock (HoverLock.onClick index st) = true)
    /\ (HoverLock.lock st = true ->
        HoverLock.focus st = Some index ->
        HoverLock.lock (HoverLock.onClick index st) = false
        /\ HoverLock.focus (HoverLock.onClick index st)
           = match HoverLock.hover st with
             | Some hovered => Some hovered
             | None => HoverLock.defaultIndex st
             end).
Proof.
  intros st index. unfold HoverLock.onClick. split.
  - intros Hother.
    destruct (HoverLock.lock st) eqn:Hlock; cbn [andb]; [| now split].
    destruct Hother as [Habs | Hfocus]; [discriminate |].
    destruct (HoverLock.focus st) as [k |] eqn:Hk; cbn; [| now split].
    destruct (Nat.eqb_spec k index) as [-> | Hne]; [| now split].
    now contradiction Hfocus.
  - intros Hlock Hfocus. rewrite Hlock, Hfocus. cbn.
    rewrite Nat.eqb_refl. now split.
Qed.

Lemma onClick_toggles_lock_witness :
  HoverLock.focus (HoverLock.onClick 1 (HoverLock.initialize (Some 0)))
    = Some 1
  /\ HoverLock.lock
       (HoverLock.onClick 1
          (HoverLock.onClick 1 (HoverLock.initialize (Some 0)))) = false.
Proof.
  split.
  - apply (proj1 (onClick_toggles_lock (HoverLock.initialize (Some 0)) 1)).
    left. reflexivity.
  - apply (proj2 (onClick_toggles_lock
                    (HoverLock.onClick 1 (HoverLock.initialize (Some 0))) 1));
      reflexivity.
Defined.

Lemma hover_keeps_lock (st : HoverLock.State) (ev : HoverLock.Event) :
  HoverLock.is_hover ev = true ->
  HoverLock.lock (HoverLock.handle st ev) = HoverLock.lock st.
Proof.
  destruct ev as [index | index |]; cbn; intros Hev; try discriminate.
  - unfold HoverLock.onMouseEnter.
    destruct (HoverLock.lock st); reflexivity.
  - unfold HoverLock.onMouseLeave.
    destruct (HoverLock.lock st); reflexivity.
Qed.

Lemma hovers_keep_lock (evs : list HoverLock.Event) :
  forall st : HoverLock.State,
    forallb HoverLock.is_hover evs = true ->
    HoverLock.lock (HoverLock.run st evs) = HoverLock.lock st.
Proof.
  induction evs as [| ev evs IH]; intros st Hall; [reflexivity |].
  cbn in Hall. apply andb_true_iff in Hall. destruct Hall as [Hev Hrest].
  cbn. unfold HoverLock.run in IH. rewrite (IH _ Hrest).
  now apply hover_keeps_lock.
Qed.

(** C4. While locked, entering and leaving leave the focus as it is;
    while unlocked, entering focuses the index and leaving clears the
    focus back to the default (no focus when there is none); and no
    sequence of enter and leave events changes the lock flag. *)
Theorem hover_respects_lock :
  forall (st : HoverLock.State) (index : nat),
    (HoverLock.lock st = true ->
     HoverLock.focus (HoverLock.onMouseEnter index st) = HoverLock.focus st
     /\ HoverLock.focus (HoverLock.onMouseLeave st) = HoverLock.focus st)
    /\ (HoverLock.lock st = false ->
        HoverLock.focus (HoverLock.onMouseEnter index st) = Some index
        /\ HoverLock.focus (HoverLock.onMouseLeave st)
           = HoverLock.defaultIndex st)
    /\ (forall evs : list HoverLock.Event,
          forallb HoverLock.is_hover evs = true ->
          HoverLock.lock (HoverLock.run st evs) = HoverLock.lock st).
Proof.
  intros st index.
  unfold HoverLock.onMouseEnter, HoverLock.onMouseLeave.
  split; [| split].
  - intros ->. now split.
  - intros ->. now split.
  - intros evs. apply hovers_keep_lock.
Qed.

Lemma hover_respects_lock_witness :
  HoverLock.focus
    (HoverLock.onMouseEnter 0
       (HoverLock.onClick 1 (HoverLock.initialize (Some 0)))) = Some 1
  /\ HoverLock.focus
       (HoverLock.onMouseLeave
          (HoverLock.onMouseEnter 2 (HoverLock.initialize None))) = None
  /\ HoverLock.lock
       (HoverLock.run (HoverLock.onClick 1 (HoverLock.initialize (Some 0)))
          [HoverLock.MouseLeave; HoverLock.MouseEnter 0]) = true.
Proof.
  split; [| split].
  - apply (proj1 (hover_respects_lock
                    (HoverLock.onClick 1 (HoverLock.initialize (Some 0))) 0)).
    reflexivity.
  - apply (proj2 (proj1 (proj2 (hover_respects_lock
                    (HoverLock.onMouseEnter 2 (HoverLock.initialize None)) 0))
                    eq_refl)).
  - apply (proj2 (proj2 (hover_respects_lock
                    (HoverLock.onClick 1 (HoverLock.initialize (Some 0))) 0))).
    reflexivity.
Defined.

(** With a default, a hover-lock always has a focus. *)
Lemma focus_defined (evs : list HoverLock.Event) :
  forall st : HoverLock.State,
    HoverLock.defaultIndex st <> None ->
    HoverLock.focus st <> None ->
    HoverLock.focus (HoverLock.run st evs) <> None.
Proof.
  induction evs as [| ev evs IH]; intros st Hdef Hfocus; [exact Hfocus |].
  cbn. apply IH.
  - destruct ev as [index | index |]; cbn;
      unfold HoverLock.onClick, HoverLock.onMouseEnter,
        HoverLock.onMouseLeave;
      match goal with |- context [if ?b then _ else _] => destruct b end;
      exact Hdef.
  - destruct ev as [index | index |]; cbn;
      unfold HoverLock.onClick, HoverLock.onMouseEnter,
        HoverLock.onMouseLeave, HoverLock.preview;
      match goal with |- context [if ?b then _ else _] => destruct b end;
      cbn; try discriminate; try assumption.
    destruct (HoverLock.hover st); [discriminate | exact Hdef].
Qed.

(** ** The component *)

Lemma nth_error_mapi_from {A B : Type} (f : A -> nat -> B) (l : list A) :
  forall start k : nat,
    nth_error (mapi_from f start l) k
    = option_map (fun x => f x (start + k)) (nth_error l k).
Proof.
  induction l as [| x l IH]; intros start k.
  - destruct k; reflexivity.
  - destruct k as [| k]; cbn.
    + now rewrite Nat.add_0_r.
    + rewrite IH. now rewrite Nat.add_succ_comm.
Qed.

Lemma nth_error_mapi {A B : Type} (f : A -> nat -> B) (l : list A) (k : nat) :
  nth_error (mapi f l) k = option_map (fun x => f x k) (nth_error l k).
Proof. unfold mapi. now rewrite nth_error_mapi_from. Qed.

Lemma shape_first_row (t : Tensor) (heads dest src : nat) :
  has_shape t heads dest src ->
  (heads <> 0 -> numDestTokens t = dest)
  /\ (heads <> 0 -> dest <> 0 -> numSrcTokens t = src).
Proof.
  intros [Hlen Hall]. unfold numDestTokens, numSrcTokens.
  destruct t as [| head t]; cbn in *.
  - split; intros; congruence.
  - apply Forall_inv in Hall. destruct Hall as [Hdest Hrows].
    split; [intros _; exact Hdest |]. intros _ Hd.
    destruct head as [| row head]; cbn in *; [congruence |].
    apply Forall_inv in Hrows. exact Hrows.
Qed.

(** C9. On the first render the head grid's hover-lock has focus 0 and
    is not locked, the token view is [DESTINATION_TO_SOURCE], and the
    tokens' hover-lock has neither a focus nor a default. *)
Theorem AttentionHeads_first_render :
  HoverLock.focus (headLock AttentionHeads_mount) = Some 0
  /\ HoverLock.lock (headLock AttentionHeads_mount) = false
  /\ tokensView AttentionHeads_mount = DESTINATION_TO_SOURCE
  /\ HoverLock.focus (tokenLock AttentionHeads_mount) = None
  /\ HoverLock.defaultIndex (tokenLock AttentionHeads_mount) = None
  /\ HoverLock.lock (tokenLock AttentionHeads_mount) = false.
Proof. repeat split. Qed.

Lemma dispatch_all_without_view_changes (evs : list ComponentEvent) :
  forall st st' : ComponentState,
    headLock st = headLock st' ->
    tokenLock st = tokenLock st' ->
    headLock (dispatch_all st evs)
    = headLock (dispatch_all st'
                  (filter (fun ev => negb (is_view_change ev)) evs))
    /\ tokenLock (dispatch_all st evs)
       = tokenLock (dispatch_all st'
                      (filter (fun ev => negb (is_view_change ev)) evs)).
Proof.
  induction evs as [| ev evs IH]; intros st st' Hhead Htoken.
  - now split.
  - destruct ev as [e | v | e]; cbn.
    + apply IH; cbn; congruence.
    + apply IH; cbn; congruence.
    + apply IH; cbn; congruence.
Qed.

(** C5. Choosing a token view leaves both hover-locks as they are; over
    any run of events, both hover-locks end as they would had the
    token-view changes not happened. *)
Theorem setTokensView_keeps_hover_locks :
  forall (st : ComponentState) (v : TokensView),
    headLock (dispatch st (SetTokensView v)) = headLock st
    /\ tokenLock (dispatch st (SetTokensView v)) = tokenLock st
    /\ tokensView (dispatch st (SetTokensView v)) = v
    /\ (forall evs : list ComponentEvent,
          headLock (dispatch_all st evs)
          = headLock (dispatch_all st
                        (filter (fun ev => negb (is_view_change ev)) evs))
          /\ tokenLock (dispatch_all st evs)
             = tokenLock (dispatch_all st
                            (filter (fun ev => negb (is_view_change ev))
                               evs))).
Proof.
  intros st v. repeat split.
  - now apply dispatch_all_without_view_changes.
  - now apply dispatch_all_without_view_changes.
Qed.

(** C7, as the code has it.  Given head names are used as they are: an
    index has the name at that index, and no name at or beyond the end
    of the given list; without given names every head index [i] is named
    [Head i].  The grid labels each cell with that name. *)
Theorem headNames_given_or_generated :
  forall (t : Tensor) (idx : nat),
    (forall given : list string,
        nth_error (headNames (Some given) t) idx = nth_error given idx)
    /\ (forall given : list string,
          List.length given <= idx ->
          nth_error (headNames (Some given) t) idx = None)
    /\ (idx < List.length t ->
        nth_error (headNames None t) idx
        = Some ("Head " ++ JS.digits_of_nat idx))
    /\ (forall (p : AttentionHeadsProps) (names : list string)
          (focused : nat) (cell : HeadCell),
          nth_error (AttentionHeadsSelector p names focused) idx = Some cell ->
          cell_label cell = nth_error names idx).
Proof.
  intros t idx. split; [| split; [| split]].
  - reflexivity.
  - intros given Hshort. cbn. now apply nth_error_None.
  - intros Hidx. cbn. rewrite nth_error_mapi.
    destruct (nth_error t idx) as [head |] eqn:Hhead; [reflexivity |].
    apply nth_error_None in Hhead. lia.
  - intros p names focused cell. unfold AttentionHeadsSelector.
    rewrite nth_error_mapi.
    destruct (nth_error (attention p) idx); cbn; [| discriminate].
    intros [= <-]. reflexivity.
Qed.

Lemma headNames_given_or_generated_witness :
  nth_error (headNames (Some ["L0H0"]) (zero_tensor 2 3 3)) 1 = None
  /\ nth_error (headNames None (zero_tensor 2 3 3)) 1 = Some "Head 1".
Proof.
  split.
  - apply (proj1 (proj2 (headNames_given_or_generated (zero_tensor 2 3 3) 1))).
    cbn. lia.
  - apply (proj1 (proj2 (proj2
             (headNames_given_or_generated (zero_tensor 2 3 3) 1)))).
    cbn. lia.
Defined.

(** One given name for two heads: head 1 is beyond the given names and
    gets no name, not [Head 1]. *)
Lemma short_names_leave_head_unnamed :
  List.length ["L0H0"] <= 1 < List.length (zero_tensor 2 3 3)
  /\ nth_error (headNames (Some ["L0H0"]) (zero_tensor 2 3 3)) 1
     <> Some "Head 1"
  /\ map cell_label
       (AttentionHeadsSelector (props_of (zero_tensor 2 3 3) (Some ["L0H0"]))
          (headNames (Some ["L0H0"]) (zero_tensor 2 3 3)) 0)
     = [Some "L0H0"; None].
Proof.
  split; [cbn; lia |]. split; [cbn; discriminate | reflexivity].
Qed.

Section DerivedViews.

Variable ColoredAttention : Type.
Variable colorAttentionTensors : Tensor -> ColoredAttention.

Lemma coloredAttention_cases (showTokens : bool) (t : Tensor) :
  coloredAttention ColoredAttention colorAttentionTensors showTokens (Some t)
  = if showTokens
       && negb ((List.length t =? 0)%nat || (numDestTokens t =? 0)%nat
                || (numSrcTokens t =? 0)%nat)
    then (Some (colorAttentionTensors t), [t])
    else (None, []).
Proof.
  unfold coloredAttention, is_absent. cbn [negb orb].
  destruct showTokens; cbn [negb orb andb]; [| reflexivity].
  destruct (List.length t =? 0)%nat; cbn [negb orb andb]; [reflexivity |].
  destruct (numDestTokens t =? 0)%nat; cbn [negb orb andb]; [reflexivity |].
  destruct (numSrcTokens t =? 0)%nat; cbn [negb orb andb]; reflexivity.
Qed.

(** The case of a null result: nothing was invoked. *)
Ltac null_result :=
  cbn;
  split; [split; [intros _; auto | reflexivity] |];
  split; [intros Hnot; now contradiction Hnot |];
  split; [intros called [] | assumption].

(** C1. For a tensor of shape [heads x dest x src], the colour data is
    null exactly when the tokens are not shown or one of the three
    dimensions is zero, and otherwise it is what [colorAttentionTensors]
    returns for the tensor; the reduction is invoked on the tensor only,
    and only when no dimension is zero; without a tensor the result is
    null and nothing is invoked. *)
Theorem coloredAttention_null_iff_degenerate :
  forall (showTokens : bool) (t : Tensor) (heads dest src : nat),
    has_shape t heads dest src ->
    let computed :=
      coloredAttention ColoredAttention colorAttentionTensors showTokens
        (Some t) in
    (result computed = None
     <-> showTokens = false \/ heads = 0 \/ dest = 0 \/ src = 0)
    /\ (result computed <> None ->
        result computed = Some (colorAttentionTensors t))
    /\ (forall called : Tensor,
          In called (invocations computed) ->
          called = t /\ showTokens = true
          /\ heads <> 0 /\ dest <> 0 /\ src <> 0)
    /\ coloredAttention ColoredAttention colorAttentionTensors showTokens
         None = (None, []).
Proof.
  intros showTokens t heads dest src Hshape computed.
  destruct (shape_first_row t heads dest src Hshape) as [Hdest Hsrc].
  assert (Hheads : List.length t = heads) by apply Hshape.
  assert (Hnone : coloredAttention ColoredAttention colorAttentionTensors
                    showTokens None = (None, [])).
  { unfold coloredAttention, is_absent.
    destruct showTokens; reflexivity. }
  subst computed. rewrite coloredAttention_cases, Hheads.
  destruct showTokens; cbn [andb]; [| null_result].
  destruct (Nat.eqb_spec heads 0) as [Hh | Hh]; cbn [orb negb];
    [null_result |].
  rewrite (Hdest Hh).
  destruct (Nat.eqb_spec dest 0) as [Hd | Hd]; cbn [orb negb];
    [null_result |].
  rewrite (Hsrc Hh Hd).
  destruct (Nat.eqb_spec src 0) as [Hs | Hs]; cbn [orb negb];
    [null_result |].
  split; [| split; [| split]]; cbn.
  - split; [discriminate |].
    intros [Hf | [Hf | [Hf | Hf]]]; congruence.
  - reflexivity.
  - intros called [<- | []]. repeat split; assumption.
  - exact Hnone.
Qed.

(** Outside the data model, with heads of different sizes, the guard
    looks at the first head and its first row only. *)
Example guard_reads_the_first_head :
  invocations
    (coloredAttention ColoredAttention colorAttentionTensors true
       (Some [[[1%float]]; []]))
  = [[[[1%float]]; []]].
Proof. reflexivity. Qed.

(** C6. For every focused head [f] the zoomed view shows [attention[f]]
    with the bounds, colours and mask flag of the grid, and its label has
    the colour of head [f], which is also the border and label colour of
    grid cell [f]; on the first render [f] is 0. *)
Theorem zoomed_view_matches_grid :
  forall (p : AttentionHeadsProps) (f : nat) (view_mode : TokensView)
         (focussedToken : option nat),
    let view :=
      AttentionHeads ColoredAttention colorAttentionTensors p f view_mode
        focussedToken in
    pattern_attention (view_zoomPattern _ view) = nth_error (attention p) f
    /\ pattern_zoomed (view_zoomPattern _ view) = Some true
    /\ view_zoomLabelBackground _ view
       = attentionHeadColor (JS.Number_of_nat f)
           (JS.Number_of_nat (List.length (attention p))) None
    /\ (forall head : Matrix,
          nth_error (attention p) f = Some head ->
          exists cell : HeadCell,
            nth_error (view_selector _ view) f = Some cell
            /\ pattern_attention (cell_pattern cell) = Some head
            /\ pattern_maxValue (cell_pattern cell)
               = pattern_maxValue (view_zoomPattern _ view)
            /\ pattern_minValue (cell_pattern cell)
               = pattern_minValue (view_zoomPattern _ view)
            /\ pattern_negativeColor (cell_pattern cell)
               = pattern_negativeColor (view_zoomPattern _ view)
            /\ pattern_positiveColor (cell_pattern cell)
               = pattern_positiveColor (view_zoomPattern _ view)
            /\ pattern_maskUpperTri (cell_pattern cell)
               = pattern_maskUpperTri (view_zoomPattern _ view)
            /\ pattern_tokens (cell_pattern cell)
               = pattern_tokens (view_zoomPattern _ view)
            /\ cell_borderColor cell = view_zoomLabelBackground _ view
            /\ cell_labelBackground cell = view_zoomLabelBackground _ view
            /\ cell_label cell = view_zoomLabel _ view)
    /\ HoverLock.focus (headLock AttentionHeads_mount) = Some 0.
Proof.
  intros p f view_mode focussedToken view.
  split; [reflexivity |]. split; [reflexivity |]. split; [reflexivity |].
  split; [| reflexivity].
  intros head Hhead. subst view.
  unfold AttentionHeads, AttentionHeadsSelector. cbn [view_selector].
  rewrite nth_error_mapi. cbn [attention]. rewrite Hhead. cbn [option_map].
  eexists. split; [reflexivity |]. cbn. repeat split; reflexivity.
Qed.

End DerivedViews.

Lemma coloredAttention_null_iff_degenerate_witness :
  result (coloredAttention nat (@List.length Matrix) true
            (Some (zero_tensor 2 3 3))) = Some 2
  /\ result (coloredAttention nat (@List.length Matrix) true
               (Some (zero_tensor 2 0 3))) = None.
Proof.
  assert (Hfull : has_shape (zero_tensor 2 3 3) 2 3 3).
  { split; [reflexivity |]. repeat constructor. }
  assert (Hflat : has_shape (zero_tensor 2 0 3) 2 0 3).
  { split; [reflexivity |]. repeat constructor. }
  split.
  - apply (proj1 (proj2 (coloredAttention_null_iff_degenerate nat
                           (@List.length Matrix) true _ 2 3 3 Hfull))).
    cbn. discriminate.
  - apply (proj1 (coloredAttention_null_iff_degenerate nat
                    (@List.length Matrix) true _ 2 0 3 Hflat)).
    right. right. left. reflexivity.
Defined.

Lemma zoomed_view_matches_grid_witness :
  exists cell : HeadCell,
    nth_error
      (view_selector nat
         (AttentionHeads nat (@List.length Matrix)
            (props_of (zero_tensor 2 3 3) None) 1 DESTINATION_TO_SOURCE None))
      1 = Some cell
    /\ cell_borderColor cell = "hsla(180, 70%, 50%,  100%)"
    /\ view_zoomLabelBackground nat
         (AttentionHeads nat (@List.length Matrix)
            (props_of (zero_tensor 2 3 3) None) 1 DESTINATION_TO_SOURCE None)
       = "hsla(180, 70%, 50%,  100%)".
Proof.
  destruct (proj1 (proj2 (proj2 (proj2
              (zoomed_view_matches_grid nat (@List.length Matrix)
                 (props_of (zero_tensor 2 3 3) None) 1
                 DESTINATION_TO_SOURCE None))))
              (repeat (repeat 0%float 3) 3) eq_refl)
    as (cell & Hcell & _ & _ & _ & _ & _ & _ & _ & Hborder & _ & _).
  exists cell. split; [exact Hcell |]. split.
  - rewrite Hborder. vm_compute. reflexivity.
  - vm_compute. reflexivity.
Defined.

(** ** A session

    Two heads of three tokens and no given names: the grid is labelled
    [Head 0] and [Head 1] and the zoomed view starts on head 0; a click on
    cell 1 moves the zoomed view to head 1, whose label has hue 180, and
    a later hover over cell 0 does not move it. *)
Example click_locks_the_zoomed_head :
  let p := props_of (zero_tensor 2 3 3) None in
  let st := dispatch_all AttentionHeads_mount
              [HeadEvent (HoverLock.MouseEnter 1);
               HeadEvent (HoverLock.Click 1);
               HeadEvent HoverLock.MouseLeave;
               HeadEvent (HoverLock.MouseEnter 0)] in
  HoverLock.focus (headLock st) = Some 1
  /\ map cell_label
       (view_selector nat
          (AttentionHeads nat (@List.length Matrix) p 0
             DESTINATION_TO_SOURCE None))
     = [Some "Head 0"; Some "Head 1"]
  /\ view_zoomLabelBackground nat
       (AttentionHeads nat (@List.length Matrix) p 1
          DESTINATION_TO_SOURCE None)
     = "hsla(180, 70%, 50%,  100%)".
Proof. vm_compute. repeat split. Qed.

Example hover_then_click_then_click :
  let st0 := HoverLock.initialize None in
  HoverLock.focus
    (HoverLock.run st0 [HoverLock.MouseEnter 2; HoverLock.MouseLeave]) = None
  /\ HoverLock.run st0 [HoverLock.Click 2]
     = HoverLock.mkState None None (Some 2) true
  /\ HoverLock.lock (HoverLock.run st0 [HoverLock.Click 2; HoverLock.Click 2])
     = false
  /\ HoverLock.run st0 [HoverLock.Click 2; HoverLock.Click 5]
     = HoverLock.mkState None None (Some 5) true.
Proof. repeat split. Qed.

(** * Further properties of the component *)

(** ** Lists built with [map] and its index *)

Lemma mapi_from_length {A B : Type} (f : A -> nat -> B) (l : list A) :
  forall start : nat, List.length (mapi_from f start l) = List.length l.
Proof.
  induction l as [| x l IH]; intros start; cbn; [reflexivity |].
  now rewrite IH.
Qed.

Lemma map_mapi_from {A B C : Type} (g : B -> C) (f : A -> nat -> B)
  (l : list A) :
  forall start : nat,
    map g (mapi_from f start l) = mapi_from (fun x k => g (f x k)) start l.
Proof.
  induction l as [| x l IH]; intros start; cbn; [reflexivity |].
  now rewrite IH.
Qed.

Lemma mapi_from_index {A B : Type} (h : nat -> B) (l : list A) :
  forall start : nat,
    mapi_from (fun _ k => h k) start l = map h (seq start (List.length l)).
Proof.
  induction l as [| x l IH]; intros start; cbn; [reflexivity |].
  now rewrite IH.
Qed.

Lemma mapi_from_value {A B : Type} (h : A -> B) (l : list A) :
  forall start : nat, mapi_from (fun x _ => h x) start l = map h l.
Proof.
  induction l as [| x l IH]; intros start; cbn; [reflexivity |].
  now rewrite IH.
Qed.

Lemma mapi_from_ext {A B : Type} (f g : A -> nat -> B) (l : list A) :
  (forall x k, f x k = g x k) ->
  forall start : nat, mapi_from f start l = mapi_from g start l.
Proof.
  intros Hfg. induction l as [| x l IH]; intros start; cbn; [reflexivity |].
  now rewrite Hfg, IH.
Qed.

Lemma Forall_mapi_from {A B : Type} (P : B -> Prop) (f : A -> nat -> B)
  (l : list A) :
  (forall x k, P (f x k)) ->
  forall start : nat, Forall P (mapi_from f start l).
Proof.
  intros HP. induction l as [| x l IH]; intros start; cbn; constructor.
  - apply HP.
  - apply IH.
Qed.

Lemma count_focused (focused count : nat) :
  forall start : nat,
    List.length (filter (fun b : bool => b)
                   (map (Nat.eqb focused) (seq start count)))
    = if (start <=? focused)%nat && (focused <? start + count)%nat
      then 1 else 0.
Proof.
  induction count as [| count IH]; intros start.
  - cbn [seq map filter List.length].
    destruct (Nat.leb_spec start focused);
      destruct (Nat.ltb_spec focused (start + 0));
      cbn [andb]; try reflexivity; lia.
  - cbn [seq map filter].
    destruct (Nat.eqb_spec focused start) as [-> | Hne]; cbn [List.length].
    + rewrite IH.
      destruct (Nat.leb_spec (S start) start); [lia |].
      destruct (Nat.leb_spec start start); [| lia].
      destruct (Nat.ltb_spec start (start + S count)); [| lia].
      reflexivity.
    + rewrite IH.
      destruct (Nat.leb_spec (S start) focused);
        destruct (Nat.leb_spec start focused);
        destruct (Nat.ltb_spec focused (S start + count));
        destruct (Nat.ltb_spec focused (start + S count));
        cbn [andb]; try reflexivity; lia.
Qed.

Lemma filter_map_length {A : Type} (g : A -> bool) (l : list A) :
  List.length (filter g l)
  = List.length (filter (fun b : bool => b) (map g l)).
Proof.
  induction l as [| x l IH]; cbn; [reflexivity |].
  destruct (g x); cbn; now rewrite IH.
Qed.

(** ** The head grid *)

(** X1. The grid has one cell per head, in the order of the heads: cell
    [k] has key [k], shows head [k], and its click and mouse-enter
    handlers pass [k] on; every cell has the same mouse-leave handler. *)
Theorem selector_one_cell_per_head :
  forall (p : AttentionHeadsProps) (names : list string) (focused : nat),
    let cells := AttentionHeadsSelector p names focused in
    let n := List.length (attention p) in
    List.length cells = n
    /\ map cell_key cells = seq 0 n
    /\ map cell_onClick cells = map HoverLock.Click (seq 0 n)
    /\ map cell_onMouseEnter cells = map HoverLock.MouseEnter (seq 0 n)
    /\ map cell_onMouseLeave cells = repeat HoverLock.MouseLeave n
    /\ map (fun cell => pattern_attention (cell_pattern cell)) cells
       = map Some (attention p).
Proof.
  intros p names focused cells n. subst cells n.
  unfold AttentionHeadsSelector, mapi.
  split; [apply mapi_from_length |].
  rewrite !map_mapi_from. cbn [cell_key cell_onClick cell_onMouseEnter
    cell_onMouseLeave cell_pattern pattern_attention].
  split; [| split; [| split; [| split]]].
  - rewrite (mapi_from_index (fun k => k)). apply map_id.
  - apply (mapi_from_index HoverLock.Click).
  - apply (mapi_from_index HoverLock.MouseEnter).
  - rewrite (mapi_from_value (fun _ => HoverLock.MouseLeave)).
    induction (attention p) as [| x l IH]; cbn; [reflexivity |].
    now rewrite IH.
  - apply (mapi_from_value (@Some Matrix)).
Qed.

Lemma highlighted_cells (p : AttentionHeadsProps) (names : list string)
  (focused : nat) :
  map highlighted (AttentionHeadsSelector p names focused)
  = map (Nat.eqb focused) (seq 0 (List.length (attention p))).
Proof.
  unfold AttentionHeadsSelector, mapi. rewrite map_mapi_from.
  rewrite <- (mapi_from_index (Nat.eqb focused) (attention p)).
  apply mapi_from_ext. intros head k. unfold highlighted. cbn.
  destruct (focused =? k)%nat; reflexivity.
Qed.

(** X2. Exactly one cell of the grid has the glow when the focused index
    is one of the heads, and none when it is not; the glowing cell is the
    focused one, and its glow is its border colour at 60% opacity: the
    same hue, the other alpha. *)
Theorem selector_highlights_the_focused_head :
  forall (p : AttentionHeadsProps) (names : list string) (focused : nat),
    let cells := AttentionHeadsSelector p names focused in
    let n := List.length (attention p) in
    List.length (filter highlighted cells)
    = (if (focused <? n)%nat then 1 else 0)
    /\ (forall (idx : nat) (cell : HeadCell),
          nth_error cells idx = Some cell ->
          (highlighted cell = true <-> idx = focused)
          /\ exists hue : string,
               cell_borderColor cell = "hsla(" ++ hue ++ ", 70%, 50%,  100%)"
               /\ (idx = focused ->
                   cell_boxShadow cell
                   = Some ("0px 0px 4px 3px hsla(" ++ hue
                             ++ ", 70%, 50%,  60%)"))).
Proof.
  intros p names focused cells n. subst cells n. split.
  - rewrite filter_map_length, highlighted_cells, count_focused.
    reflexivity.
  - intros idx cell. unfold AttentionHeadsSelector.
    rewrite nth_error_mapi.
    destruct (nth_error (attention p) idx) as [head |]; cbn [option_map];
      [| discriminate].
    intros [= <-]. unfold highlighted. cbn. split.
    + destruct (Nat.eqb_spec focused idx) as [-> | Hne];
        split; intros H; try reflexivity; try discriminate.
      now contradiction Hne.
    + eexists. split; [reflexivity |].
      intros ->. rewrite Nat.eqb_refl. reflexivity.
Qed.

Lemma selector_highlights_the_focused_head_witness :
  map highlighted
    (AttentionHeadsSelector (props_of (zero_tensor 2 3 3) None) [] 1)
  = [false; true]
  /\ exists cell : HeadCell,
       nth_error
         (AttentionHeadsSelector (props_of (zero_tensor 2 3 3) None) [] 1) 1
       = Some cell
       /\ (highlighted cell = true <-> 1 = 1).
Proof.
  split; [reflexivity |].
  eexists. split; [reflexivity |].
  apply (proj2 (selector_highlights_the_focused_head
                  (props_of (zero_tensor 2 3 3) None) [] 1) 1).
  reflexivity.
Defined.

(** ** Names and colours of the heads *)

Lemma to_uint_nonnil (n : N) : N.to_uint n <> Decimal.Nil.
Proof.
  rewrite <- (DecimalN.Unsigned.of_to n), DecimalN.Unsigned.to_of.
  apply DecimalFacts.unorm_nonnil.
Qed.

(** Printing in decimal digits loses nothing. *)
Lemma digits_of_Z_inj (a b : Z) :
  (0 <= a)%Z -> (0 <= b)%Z -> JS.digits_of_Z a = JS.digits_of_Z b -> a = b.
Proof.
  intros Ha Hb Heq. unfold JS.digits_of_Z in Heq.
  apply (f_equal NilZero.uint_of_string) in Heq.
  rewrite !NilZero.usu in Heq by apply to_uint_nonnil.
  injection Heq as Heq. apply DecimalN.Unsigned.to_uint_inj in Heq. lia.
Qed.


Lemma append_length (a b : string) :
  String.length (a ++ b) = String.length a + String.length b.
Proof. induction a as [| c a IH]; cbn; [reflexivity | now rewrite IH]. Qed.

Lemma append_same_tail (a b tail : string) :
  a ++ tail = b ++ tail -> a = b.
Proof.
  revert b. induction a as [| c a IH]; intros b Heq.
  - destruct b as [| d b]; [reflexivity |].
    apply (f_equal String.length) in Heq. cbn in Heq.
    rewrite append_length in Heq. lia.
  - destruct b as [| d b].
    + apply (f_equal String.length) in Heq. cbn in Heq.
      rewrite append_length in Heq. lia.
    + cbn in Heq. injection Heq as -> Heq. f_equal. now apply IH.
Qed.


Lemma colour_of_whole_heads (headCount index : nat) (alpha : option string) :
  0 < headCount <= 719 -> index < headCount ->
  attentionHeadColor (JS.Number_of_nat index) (JS.Number_of_nat headCount)
    alpha
  = "hsla(" ++ JS.digits_of_Z (hue_degrees index headCount)
      ++ ", 70%, 50%,  " ++ with_default alpha "100%" ++ ")".
Proof.
  intros Hn Hi.
  destruct (hue_of_whole_heads headCount index Hn Hi) as (Hhue & Hrange & _).
  rewrite attentionHeadColor_unfold, Hhue.
  set (h := hue_degrees index headCount) in *.
  rewrite <- (Z2Nat.id h) by lia.
  change (JS.Number_of_Z (Z.of_nat (Z.to_nat h)))
    with (JS.Number_of_nat (Z.to_nat h)).
  rewrite (proj1 (Number_of_degrees (Z.to_nat h) ltac:(lia))).
  reflexivity.
Qed.

Lemma hues_increase (n i j hi hj : Z) :
  (0 < n <= 360)%Z -> (i < j)%Z ->
  (Z.abs (2 * n * hi - 720 * i) <= n)%Z ->
  (Z.abs (2 * n * hj - 720 * j) <= n)%Z ->
  (hi < hj)%Z.
Proof.
  intros Hn Hij Hi Hj. apply Z.abs_le in Hi, Hj.
  destruct (Z_lt_le_dec hi hj) as [Hlt | Hle]; [exact Hlt | exfalso].
  destruct (Z.eq_dec n 360) as [-> | Hne]; [lia |].
  assert (Hmul : (n * hj <= n * hi)%Z)
    by (apply Z.mul_le_mono_nonneg_l; lia).
  rewrite <- !Z.mul_assoc in Hi, Hj.
  set (a := (n * hi)%Z) in *. set (b := (n * hj)%Z) in *.
  lia.
Qed.

(** X3. Up to 360 heads, heads further on have a strictly larger hue, so
    no two heads of the grid have the same colour, at any opacity. *)
Theorem colours_differ_up_to_360_heads :
  forall (headCount i j : nat) (alpha : option string),
    0 < headCount <= 360 ->
    i < j < headCount ->
    (hue_degrees i headCount < hue_degrees j headCount)%Z
    /\ attentionHeadColor (JS.Number_of_nat i) (JS.Number_of_nat headCount)
         alpha
       <> attentionHeadColor (JS.Number_of_nat j)
            (JS.Number_of_nat headCount) alpha.
Proof.
  intros headCount i j alpha Hn Hij.
  destruct (hue_of_whole_heads headCount i ltac:(lia) ltac:(lia))
    as (_ & Hri & Hni).
  destruct (hue_of_whole_heads headCount j ltac:(lia) ltac:(lia))
    as (_ & Hrj & Hnj).
  assert (Hlt : (hue_degrees i headCount < hue_degrees j headCount)%Z).
  { apply (hues_increase (Z.of_nat headCount) (Z.of_nat i) (Z.of_nat j));
      try assumption; lia. }
  split; [exact Hlt |].
  rewrite !colour_of_whole_heads by lia. intros Heq.
  cbn [append] in Heq. injection Heq as Heq.
  apply append_same_tail in Heq. apply digits_of_Z_inj in Heq; lia.
Qed.

Lemma colours_differ_up_to_360_heads_witness :
  (hue_degrees 0 2 < hue_degrees 1 2)%Z
  /\ attentionHeadColor (JS.Number_of_nat 0) (JS.Number_of_nat 2) None
     <> attentionHeadColor (JS.Number_of_nat 1) (JS.Number_of_nat 2) None.
Proof.
  apply (colours_differ_up_to_360_heads 2 0 1 None); lia.
Defined.

Lemma hues_climb_or_repeat (headCount : nat) :
  0 < headCount <= 719 ->
  forall k : nat,
    k < headCount ->
    (exists i : nat,
        i < k /\ hue_degrees i headCount = hue_degrees (S i) headCount)
    \/ (Z.of_nat k <= hue_degrees k headCount)%Z.
Proof.
  intros Hn. induction k as [| k IH]; intros Hk.
  - right. destruct (hue_of_whole_heads headCount 0 Hn Hk) as (_ & Hr & _).
    lia.
  - destruct (IH ltac:(lia)) as [(i & Hi & Heq) | Hclimb].
    + left. exists i. split; [lia | exact Heq].
    + destruct (hue_of_whole_heads headCount k Hn ltac:(lia))
        as (_ & _ & Hnk).
      destruct (hue_of_whole_heads headCount (S k) Hn Hk) as (_ & _ & Hns).
      assert (Hle : (hue_degrees k headCount
                     <= hue_degrees (S k) headCount)%Z).
      { apply (near_hues_ordered (Z.of_nat headCount) (Z.of_nat k)
                 (Z.of_nat (S k))); try assumption; lia. }
      destruct (Z.eq_dec (hue_degrees k headCount)
                  (hue_degrees (S k) headCount)) as [Heq | Hne].
      * left. exists k. split; [lia | exact Heq].
      * right. lia.
Qed.

(** X4. From 361 to 719 heads two neighbouring heads of the grid have the
    same colour: there are more heads than whole degrees below 360. *)
Theorem colours_repeat_beyond_360_heads :
  forall (headCount : nat) (alpha : option string),
    360 < headCount <= 719 ->
    exists i : nat,
      S i < headCount
      /\ attentionHeadColor (JS.Number_of_nat i) (JS.Number_of_nat headCount)
           alpha
         = attentionHeadColor (JS.Number_of_nat (S i))
             (JS.Number_of_nat headCount) alpha.
Proof.
  intros headCount alpha Hn.
  destruct (hues_climb_or_repeat headCount ltac:(lia) (headCount - 1)
              ltac:(lia)) as [(i & Hi & Heq) | Hclimb].
  - exists i. split; [lia |].
    rewrite !colour_of_whole_heads by lia. now rewrite Heq.
  - destruct (hue_of_whole_heads headCount (headCount - 1) ltac:(lia)
                ltac:(lia)) as (_ & Hr & _).
    lia.
Qed.

Lemma colours_repeat_beyond_360_heads_witness :
  exists i : nat,
    S i < 361
    /\ attentionHeadColor (JS.Number_of_nat i) (JS.Number_of_nat 361) None
       = attentionHeadColor (JS.Number_of_nat (S i)) (JS.Number_of_nat 361)
           None.
Proof.
  apply (colours_repeat_beyond_360_heads 361 None). lia.
Defined.

(** ** What [AttentionHeads] renders *)


Section Rendering.

Variable ColoredAttention : Type.
Variable colorAttentionTensors : Tensor -> ColoredAttention.


(** X6. Every heat map of a rendering gets the same tokens, bounds and
    colours, those of the properties, and the same mask flag, which is
    [true] when the property is not given; the cells of the grid ask for
    no axis labels and are not zoomed, the zoomed view is zoomed and
    leaves the axis labels to the heat map's default. *)
Theorem heat_maps_share_their_properties :
  forall (p : AttentionHeadsProps) (focused : nat) (view_mode : TokensView)
         (focussedToken : option nat),
    let view :=
      AttentionHeads ColoredAttention colorAttentionTensors p focused
        view_mode focussedToken in
    let shared (q : AttentionPatternProps) :=
      pattern_tokens q = tokens p
      /\ pattern_maxValue q = maxValue p
      /\ pattern_minValue q = minValue p
      /\ pattern_negativeColor q = negativeColor p
      /\ pattern_positiveColor q = positiveColor p
      /\ pattern_maskUpperTri q
         = Some (match maskUpperTri p with Some b => b | None => true end)
    in
    Forall (fun cell =>
              shared (cell_pattern cell)
              /\ pattern_showAxisLabels (cell_pattern cell) = Some false
              /\ pattern_zoomed (cell_pattern cell) = None)
      (view_selector _ view)
    /\ shared (view_zoomPattern _ view)
    /\ pattern_showAxisLabels (view_zoomPattern _ view) = None
    /\ pattern_zoomed (view_zoomPattern _ view) = Some true.
Proof.
  intros p focused view_mode focussedToken view shared. subst view shared.
  split.
  - unfold AttentionHeads, AttentionHeadsSelector, mapi.
    cbn [view_selector]. apply Forall_mapi_from.
    intros head k. cbn. repeat split.
  - cbn. repeat split.
Qed.

(** X7. Whatever the tensor, also one with heads of different sizes, the
    reduction is invoked at most once, exactly when the result is not
    null, and then on the tensor as it was given; whether it is invoked
    is decided by [showTokens], the number of heads, the number of rows of
    the first head and the length of its first row. *)
Theorem coloredAttention_invokes_at_most_once :
  forall (showTokens : bool) (attention : option Tensor),
    let computed :=
      coloredAttention ColoredAttention colorAttentionTensors showTokens
        attention in
    (computed = (None, [])
     /\ (showTokens = false \/ attention = None
         \/ exists t, attention = Some t
                      /\ (t = [] \/ numDestTokens t = 0
                          \/ numSrcTokens t = 0)))
    \/ (exists t,
          attention = Some t
          /\ computed = (Some (colorAttentionTensors t), [t])
          /\ showTokens = true
          /\ t <> [] /\ numDestTokens t <> 0 /\ numSrcTokens t <> 0).
Proof.
  intros showTokens attention computed. subst computed.
  destruct attention as [t |].
  2:{ left. split; [destruct showTokens; reflexivity | auto]. }
  rewrite coloredAttention_cases.
  destruct showTokens; cbn [andb]; [| left; split; [reflexivity | auto]].
  destruct t as [| head t].
  { left. split; [reflexivity |]. right. right. exists []. auto. }
  cbn [List.length Nat.eqb orb].
  destruct (Nat.eqb_spec (numDestTokens (head :: t)) 0) as [Hd | Hd];
    cbn [orb negb].
  { left. split; [reflexivity |]. right. right. exists (head :: t). auto. }
  destruct (Nat.eqb_spec (numSrcTokens (head :: t)) 0) as [Hs | Hs];
    cbn [orb negb].
  { left. split; [reflexivity |]. right. right. exists (head :: t). auto. }
  right. exists (head :: t). repeat split; try assumption. discriminate.
Qed.

(** X8. The token overlay is rendered exactly when [showTokens] is not
    false and the tensor has a head whose first row is not empty.  When
    it is rendered it gets the reduction of the tensor, the focused head,
    the focused token, the token view and the tokens, and its handlers
    are those of the tokens' hover-lock. *)
Theorem token_overlay_shown_iff :
  forall (p : AttentionHeadsProps) (focused : nat) (view_mode : TokensView)
         (focussedToken : option nat),
    let view :=
      AttentionHeads ColoredAttention colorAttentionTensors p focused
        view_mode focussedToken in
    (view_tokens _ view = None
     <-> showTokens p = Some false \/ attention p = []
         \/ numDestTokens (attention p) = 0
         \/ numSrcTokens (attention p) = 0)
    /\ (forall overlay : TokensProps ColoredAttention,
          view_tokens _ view = Some overlay ->
          tokens_coloredAttention _ overlay
          = colorAttentionTensors (attention p)
          /\ tokens_focusedHead _ overlay = focused
          /\ tokens_focusedToken _ overlay = focussedToken
          /\ tokens_tokensView _ overlay = view_mode
          /\ tokens_tokens _ overlay = tokens p
          /\ (forall k, tokens_onClickToken _ overlay k = HoverLock.Click k)
          /\ (forall k, tokens_onMouseEnterToken _ overlay k
                        = HoverLock.MouseEnter k)
          /\ tokens_onMouseLeaveToken _ overlay = HoverLock.MouseLeave).
Proof.
  intros p focused view_mode focussedToken view. subst view.
  unfold AttentionHeads. cbn [view_tokens].
  destruct (coloredAttention_invokes_at_most_once
              (with_default (showTokens p) true) (Some (attention p)))
    as [(Hnull & Hwhy) | (t & Ht & Hcall & Hshow & Hne & Hd & Hs)].
  - rewrite Hnull. cbn [result fst]. split.
    + split; [intros _ | intros _; destruct (with_default _ _); reflexivity].
      destruct Hwhy as [Hoff | [Habs | (t & [= <-] & Hdeg)]].
      * left. destruct (showTokens p) as [[] |]; cbn in Hoff;
          try discriminate. reflexivity.
      * discriminate.
      * right. exact Hdeg.
    + intros overlay. destruct (with_default _ _); discriminate.
  - injection Ht as <-. rewrite Hcall, Hshow. cbn [result fst]. split.
    + split; [discriminate |].
      intros [Hoff | [Hempty | [Hzero | Hzero]]]; try contradiction.
      rewrite Hoff in Hshow. discriminate.
    + intros overlay [= <-]. cbn. repeat split.
Qed.


End Rendering.


Lemma token_overlay_shown_iff_witness :
  view_tokens nat
    (AttentionHeads nat (@List.length Matrix)
       (props_of (zero_tensor 2 0 3) None) 0 DESTINATION_TO_SOURCE None)
  = None
  /\ forall overlay : TokensProps nat,
       view_tokens nat
         (AttentionHeads nat (@List.length Matrix)
            (props_of (zero_tensor 2 3 3) None) 0 SOURCE_TO_DESTINATION
            (Some 2))
       = Some overlay ->
       tokens_tokensView nat overlay = SOURCE_TO_DESTINATION.
Proof.
  split.
  - apply (proj1 (token_overlay_shown_iff nat (@List.length Matrix)
                    (props_of (zero_tensor 2 0 3) None) 0
                    DESTINATION_TO_SOURCE None)).
    right. right. left. reflexivity.
  - intros overlay Hshown.
    apply (proj2 (token_overlay_shown_iff nat (@List.length Matrix)
                    (props_of (zero_tensor 2 3 3) None) 0
                    SOURCE_TO_DESTINATION (Some 2)) overlay Hshown).
Defined.

